(** * interview-assistant: the uniqueness-enforcing generation loop

    A shallow embedding of the Python sources

      - [core/ai/embeddings.py]        (cosine similarity, difference checks)
      - [core/utils/retry.py]          (RetryStrategy.execute, the retry decorator)
      - [storage/storage.py]           (QuestionStorage, TipStorage over fakeredis)
      - [core/ai/content_generation/]  (synchronous and streaming generators)
      - [core/services.py]             (QuestionService, TipService and the
                                        streaming services)

    Python floats are read as real numbers: NumPy's rounding, overflow and
    NaN are outside the model.  Exceptions are values of [exn]; a Python
    function that can raise returns a [result]; code that touches the
    fakeredis store, the chat provider, [uuid.uuid1] or the clock is a
    function from [world] to a result and a new [world]. *)

From Stdlib Require Import Reals Lra String Ascii.
From stdpp Require Import base option list gmap strings pretty.

Open Scope string_scope.
Open Scope list_scope.

(** ** Python exceptions and results *)

(** Every class below is a subclass of Python's [Exception], the only thing
    the [except Exception] clauses of the sources catch. *)
Inductive exn : Type :=
  | ValueError (msg : string)
  | AttributeError (msg : string)
  | TypeError (msg : string)
  | ProviderError (msg : string).

(** [str(e)] *)
Definition str (e : exn) : string :=
  match e with
  | ValueError m | AttributeError m | TypeError m | ProviderError m => m
  end.

Inductive result (A : Type) : Type :=
  | Ok (a : A)
  | Raise (e : exn).
Arguments Ok {A} a.
Arguments Raise {A} e.

(** The exception a result carries, if any. *)
Definition raised {A} (r : result A) : option exn :=
  match r with Ok _ => None | Raise e => Some e end.

(** ** core/ai/embeddings.py *)

Module Embeddings.

Open Scope R_scope.

(** The comparisons [<] and [==] of Python floats, on reals. *)
Definition Rltb (x y : R) : bool := if Rlt_dec x y then true else false.
Definition Reqb (x y : R) : bool := if Req_dec_T x y then true else false.

(** [np.dot(v1, v2)] on two one-dimensional arrays; [None] when the shapes
    are not aligned (NumPy raises a ValueError there). *)
Fixpoint dot (v1 v2 : list R) : option R :=
  match v1, v2 with
  | [], [] => Some 0
  | x :: v1', y :: v2' =>
      match dot v1' v2' with
      | Some s => Some (x * y + s)
      | None => None
      end
  | _, _ => None
  end.

Fixpoint sum_squares (v : list R) : R :=
  match v with
  | [] => 0
  | x :: v' => x * x + sum_squares v'
  end.

(** [np.linalg.norm(v)] *)
Definition norm (v : list R) : R := sqrt (sum_squares v).

Definition shapes_not_aligned (v1 v2 : list R) : exn :=
  ValueError ("shapes (" +:+ pretty (length v1) +:+ ",) and ("
              +:+ pretty (length v2) +:+ ",) not aligned").

(** [OpenAIEmbedder._cosine_similarity] *)
Definition _cosine_similarity (vec1 vec2 : list R) : result R :=
  match dot vec1 vec2 with
  | None => Raise (shapes_not_aligned vec1 vec2)
  | Some dot_product =>
      let norm_v1 := norm vec1 in
      let norm_v2 := norm vec2 in
      if Reqb norm_v1 0 || Reqb norm_v2 0 then Ok 0
      else Ok (dot_product / (norm_v1 * norm_v2))
  end.

(** [OpenAIEmbedder.are_embeddings_different], for an embedder whose
    [similarity_threshold] field is [similarity_threshold]. *)
Definition are_embeddings_different (similarity_threshold : R)
    (embedding1 embedding2 : list R) : result bool :=
  match _cosine_similarity embedding1 embedding2 with
  | Ok s => Ok (Rltb s similarity_threshold)
  | Raise e => Raise e
  end.

(** The validation of the field: [Field(default=0.8, ge=0.0, le=1.0)]. *)
Definition valid_threshold (t : R) : Prop := 0 <= t <= 1.

End Embeddings.

(** The abstract base class [Embedder]: the two abstract methods.  The
    embedding API behind [get_embedding] is read as a function of the text
    (the class memoises it with [lru_cache]). *)
Class Embedder : Type := {
  get_embedding : string -> list R;
  are_embeddings_different : list R -> list R -> result bool;
}.

(** [OpenAIEmbedder], for a given embedding model and threshold. *)
Definition OpenAIEmbedder (_get_embedding : string -> list R)
    (similarity_threshold : R) : Embedder :=
  {| get_embedding := _get_embedding;
     are_embeddings_different :=
       Embeddings.are_embeddings_different similarity_threshold |}.

(** Python's [all(f(x) for x in l)]: evaluation stops at the first falsy
    value, and an exception raised by [f] propagates. *)
Fixpoint py_all {A} (f : A -> result bool) (l : list A) : result bool :=
  match l with
  | [] => Ok true
  | x :: l' =>
      match f x with
      | Raise e => Raise e
      | Ok false => Ok false
      | Ok true => py_all f l'
      end
  end.

(** [OpenAIEmbedder.is_embedding_different_from_list] *)
Definition is_embedding_different_from_list `{Embedder}
    (embedding : list R) (list_embedding : list (list R)) : result bool :=
  py_all (are_embeddings_different embedding) list_embedding.

(** ** core/schemas.py *)

Abbreviation UUID := N.

Inductive QuestionType := exercise | knowledge_question.
Inductive JobTitle := data_analyst | data_scientist | data_engineer.

Record QuestionGenerationRequest : Type := {
  user_id : UUID;
  question_type : QuestionType;
  job_title : JobTitle;
  skill_to_test : string;
  n : nat;
}.

Record QuestionContent : Type := {
  question : string;
  expected_answer : string;
  evaluation_criteria : string;
  expected_duration : string;
}.

Record Metadata : Type := {
  created_at : N;
  app_version : string;
}.

(** [GeneratedQuestion(QuestionContent, Metadata)] with its own two fields. *)
Record GeneratedQuestion : Type := {
  question_content : QuestionContent;
  question_metadata : Metadata;
  question_id_of : UUID;
  question_request : QuestionGenerationRequest;
}.

Record TipGenerationRequest : Type := { question_id : UUID }.

Record TipContent : Type := { tip : string }.

Record GeneratedTip : Type := {
  tip_content : TipContent;
  tip_metadata : Metadata;
  tip_id_of : UUID;
  tip_request : TipGenerationRequest;
}.

(** ** The outside world *)

(** A value held by fakeredis with the time to live set by [expire]
    ([None]: no expiry set).  The model has no clock: nothing expires. *)
Record entry (V : Type) : Type := { value : V; ttl : option positive }.
Arguments value {V} e.
Arguments ttl {V} e.

(** The reply of [chat.completions.parse]: [choices[0].message]. *)
Record message (A : Type) : Type := {
  refusal : option string;
  parsed : option A;
}.
Arguments refusal {A} m.
Arguments parsed {A} m.

(** The reply of [chat.completions.create(stream=True)]: the
    [delta.content] of each chunk, and the exception that ends the stream
    when the provider breaks off ([None]: the provider signals completion). *)
Record provider_stream : Type := {
  deltas : list (option string);
  ending : option exn;
}.

(** What the code cannot decide: the identifiers [uuid.uuid1()] returns,
    the clock, the replies of the chat provider, each as a function of the
    number of earlier calls (and, for the provider, of what the prompt is
    built from), and the configured [EXPIRATION_SECONDS]. *)
Record environment : Type := {
  uuid1 : nat -> UUID;
  now : nat -> N;
  parse_question :
    nat -> QuestionGenerationRequest -> list string ->
    result (message QuestionContent);
  parse_tip :
    nat -> GeneratedQuestion -> list string -> result (message TipContent);
  question_stream :
    nat -> QuestionGenerationRequest -> list string -> result provider_stream;
  tip_stream :
    nat -> GeneratedQuestion -> list string -> result provider_stream;
  EXPIRATION_SECONDS : positive;
}.

(** The mutable state: the fakeredis store, one map per family of keys
    ([question:{id}], [user:{id}:questions], [tip:{id}],
    [question:{id}:tips]; each family is only ever touched by one kind of
    command); the number of calls made so far to [uuid.uuid1], to the clock
    and to the chat provider; the private attributes of the content
    generators ([None] for an attribute not set). *)
Record world : Type := {
  questions : gmap N (entry GeneratedQuestion);
  user_questions : gmap N (entry (gset N));
  tips : gmap N (entry GeneratedTip);
  question_tips : gmap N (entry (gset N));
  uuid_calls : nat;
  clock_calls : nat;
  chat_calls : nat;
  _current_tip : option string;
  _current_question : option QuestionContent;
}.

(** Code with effects: a result and the world it leaves.  An exception
    keeps the effects that came before it. *)
Definition M (A : Type) : Type := world -> result A * world.

Definition ret {A} (a : A) : M A := fun w => (Ok a, w).
Definition raise {A} (e : exn) : M A := fun w => (Raise e, w).
Definition bind {A B} (c : M A) (k : A -> M B) : M B :=
  fun w => match c w with
           | (Ok a, w') => k a w'
           | (Raise e, w') => (Raise e, w')
           end.

Notation "'let*' x ':=' c 'in' k" := (bind c (fun x => k))
  (at level 10, x name, c at level 100, k at level 200).

Definition bump_uuid (w : world) : world :=
  {| questions := questions w; user_questions := user_questions w;
     tips := tips w; question_tips := question_tips w;
     uuid_calls := S (uuid_calls w); clock_calls := clock_calls w;
     chat_calls := chat_calls w; _current_tip := _current_tip w;
     _current_question := _current_question w |}.

Definition bump_clock (w : world) : world :=
  {| questions := questions w; user_questions := user_questions w;
     tips := tips w; question_tips := question_tips w;
     uuid_calls := uuid_calls w; clock_calls := S (clock_calls w);
     chat_calls := chat_calls w; _current_tip := _current_tip w;
     _current_question := _current_question w |}.

Definition bump_chat (w : world) : world :=
  {| questions := questions w; user_questions := user_questions w;
     tips := tips w; question_tips := question_tips w;
     uuid_calls := uuid_calls w; clock_calls := clock_calls w;
     chat_calls := S (chat_calls w); _current_tip := _current_tip w;
     _current_question := _current_question w |}.

Definition set_current_tip (v : option string) (w : world) : world :=
  {| questions := questions w; user_questions := user_questions w;
     tips := tips w; question_tips := question_tips w;
     uuid_calls := uuid_calls w; clock_calls := clock_calls w;
     chat_calls := chat_calls w; _current_tip := v;
     _current_question := _current_question w |}.

Definition set_current_question (v : option QuestionContent) (w : world)
    : world :=
  {| questions := questions w; user_questions := user_questions w;
     tips := tips w; question_tips := question_tips w;
     uuid_calls := uuid_calls w; clock_calls := clock_calls w;
     chat_calls := chat_calls w; _current_tip := _current_tip w;
     _current_question := v |}.

Definition set_question_store (qs : gmap N (entry GeneratedQuestion))
    (uqs : gmap N (entry (gset N))) (w : world) : world :=
  {| questions := qs; user_questions := uqs;
     tips := tips w; question_tips := question_tips w;
     uuid_calls := uuid_calls w; clock_calls := clock_calls w;
     chat_calls := chat_calls w; _current_tip := _current_tip w;
     _current_question := _current_question w |}.

Definition set_tip_store (ts : gmap N (entry GeneratedTip))
    (qts : gmap N (entry (gset N))) (w : world) : world :=
  {| questions := questions w; user_questions := user_questions w;
     tips := ts; question_tips := qts;
     uuid_calls := uuid_calls w; clock_calls := clock_calls w;
     chat_calls := chat_calls w; _current_tip := _current_tip w;
     _current_question := _current_question w |}.

(** ** The Redis commands the storage classes use *)

Module Redis.

(** [conn.exists(key)], as the test [== 1] of [key_exists] reads it *)
Definition exists_ {V} (key : N) (m : gmap N (entry V)) : bool :=
  bool_decide (is_Some (m !! key)).

(** [hset(key, mapping=...)] with a mapping that gives every field: the
    hash is the mapping; a time to live already set stays. *)
Definition hset {V} (key : N) (mapping : V) (m : gmap N (entry V))
    : gmap N (entry V) :=
  <[key := {| value := mapping; ttl := m !! key ≫= ttl |}]> m.

(** [sadd(key, member)] *)
Definition sadd (key member : N) (m : gmap N (entry (gset N)))
    : gmap N (entry (gset N)) :=
  <[key := {| value := {[member]} ∪ from_option value ∅ (m !! key);
              ttl := m !! key ≫= ttl |}]> m.

(** [expire(key, seconds)], for a positive number of seconds *)
Definition expire {V} (key : N) (seconds : positive) (m : gmap N (entry V))
    : gmap N (entry V) :=
  alter (fun e => {| value := value e; ttl := Some seconds |}) key m.

(** [hgetall(key)]: [None] stands for the empty dict of a missing key. *)
Definition hgetall {V} (key : N) (m : gmap N (entry V)) : option V :=
  value <$> m !! key.

(** [smembers(key)] *)
Definition smembers (key : N) (m : gmap N (entry (gset N))) : gset N :=
  from_option value ∅ (m !! key).

End Redis.

(** ** core/utils/retry.py *)

Record RetryStrategy : Type := {
  max_attempts : nat;            (* Field(default=5, ge=1) *)
  should_retry : exn -> bool;    (* default: [lambda _: True] *)
  error_message : string;        (* default: "Operation failed" *)
}.

Definition default_should_retry : exn -> bool := fun _ => true.

(** [str.lower()], on ASCII letters *)
Definition lower_ascii (c : ascii) : ascii :=
  let k := nat_of_ascii c in
  if (65 <=? k)%nat && (k <=? 90)%nat then ascii_of_nat (k + 32) else c.

Fixpoint lower (s : string) : string :=
  match s with
  | EmptyString => EmptyString
  | String c s' => String (lower_ascii c) (lower s')
  end.

Module Retry.
Section execute.

Context {T : Type}.
Variable self : RetryStrategy.
(** [operation.__name__] and the operation applied to its arguments *)
Variable __name__ : string.
Variable operation : M T.

(** The [for attempt in range(self.max_attempts)] loop, [attempts] being
    the iterations left: [inl] is the [return] of the first success,
    [inr last_exception] falls through to the final [raise]. *)
Fixpoint attempt_loop (attempts : nat) (last_exception : option exn)
    (w : world) : (T + option exn) * world :=
  match attempts with
  | O => (inr last_exception, w)
  | S attempts' =>
      match operation w with
      | (Ok result, w') => (inl result, w')
      | (Raise e, w') =>
          if negb (should_retry self e) then (inr (Some e), w')
          else attempt_loop attempts' (Some e) w'
      end
  end.

(** The message of the [ValueError] raised after the loop *)
Definition exhausted_message (last_exception : option exn) : string :=
  "Function '" +:+ __name__ +:+ "' " +:+ lower (error_message self)
  +:+ " after " +:+ pretty (max_attempts self)
  +:+ " attempts. Last error: "
  +:+ match last_exception with Some e => str e | None => "None" end.

(** [RetryStrategy.execute] *)
Definition execute : M T := fun w =>
  match attempt_loop (max_attempts self) None w with
  | (inl result, w') => (Ok result, w')
  | (inr last_exception, w') =>
      (Raise (ValueError (exhausted_message last_exception)), w')
  end.

End execute.
End Retry.

(** The decorator [@retry(max_attempts, should_retry, error_message)] builds
    a [RetryStrategy] from its three arguments and wraps the function in
    [strategy.execute]. *)
Definition retry {T} (max_attempts : nat) (should_retry : exn -> bool)
    (error_message : string) (__name__ : string) (func : M T) : M T :=
  Retry.execute
    {| max_attempts := max_attempts; should_retry := should_retry;
       error_message := error_message |} __name__ func.

(** ** storage/storage.py *)

Section Storage.

Variable env : environment.

(** [QuestionStorage.add_question].  [question_content] is [None] when the
    caller passes Python's [None] (a refused completion has no parsed
    content): [model_dump] then fails, after the identifier and the
    metadata were made and before anything is written. *)
Definition add_question (request : QuestionGenerationRequest)
    (question_content : option QuestionContent) : M GeneratedQuestion :=
  fun w =>
  let question_id := uuid1 env (uuid_calls w) in
  let w := bump_uuid w in
  if Redis.exists_ question_id (questions w) then
    (Raise (ValueError ("Question with ID " +:+ pretty question_id
                        +:+ " already exists.")), w)
  else
    let metadata := {| created_at := now env (clock_calls w);
                       app_version := "0.1.0" |} in
    let w := bump_clock w in
    match question_content with
    | None =>
        (Raise (AttributeError
                  "'NoneType' object has no attribute 'model_dump'"), w)
    | Some content =>
        let question_data :=
          {| question_content := content; question_metadata := metadata;
             question_id_of := question_id; question_request := request |} in
        let user_questions_key := user_id request in
        (* pipe.hset; pipe.sadd; pipe.expire; pipe.expire; pipe.execute *)
        let qs := Redis.hset question_id question_data (questions w) in
        let uqs := Redis.sadd user_questions_key question_id
                     (user_questions w) in
        let qs := Redis.expire question_id (EXPIRATION_SECONDS env) qs in
        let uqs := Redis.expire user_questions_key
                     (EXPIRATION_SECONDS env) uqs in
        (Ok question_data, set_question_store qs uqs w)
    end.

(** [QuestionStorage.get_question] *)
Definition get_question (question_id : UUID) (w : world)
    : option GeneratedQuestion :=
  Redis.hgetall question_id (questions w).

(** [QuestionStorage.list_questions_by_user]; the order is that of
    [smembers], here the order of [elements]. *)
Definition list_questions_by_user (user_id : UUID) (w : world)
    : list GeneratedQuestion :=
  let question_ids := Redis.smembers user_id (user_questions w) in
  omap (fun qid => get_question qid w) (elements question_ids).

(** [TipStorage.add_tip] *)
Definition add_tip (request : TipGenerationRequest)
    (tip_content : option TipContent) : M GeneratedTip :=
  fun w =>
  let tip_id := uuid1 env (uuid_calls w) in
  let w := bump_uuid w in
  if Redis.exists_ tip_id (tips w) then
    (Raise (ValueError ("Tip with ID " +:+ pretty tip_id
                        +:+ " already exists.")), w)
  else
    let metadata := {| created_at := now env (clock_calls w);
                       app_version := "0.1.0" |} in
    let w := bump_clock w in
    match tip_content with
    | None =>
        (Raise (AttributeError
                  "'NoneType' object has no attribute 'model_dump'"), w)
    | Some content =>
        let tip_record :=
          {| tip_content := content; tip_metadata := metadata;
             tip_id_of := tip_id; tip_request := request |} in
        let question_tips_key := question_id request in
        let ts := Redis.hset tip_id tip_record (tips w) in
        let qts := Redis.sadd question_tips_key tip_id (question_tips w) in
        let ts := Redis.expire tip_id (EXPIRATION_SECONDS env) ts in
        let qts := Redis.expire question_tips_key
                     (EXPIRATION_SECONDS env) qts in
        (Ok tip_record, set_tip_store ts qts w)
    end.

(** [TipStorage.get_tip] *)
Definition get_tip (tip_id : UUID) (w : world) : option GeneratedTip :=
  Redis.hgetall tip_id (tips w).

(** [TipStorage.list_tips_for_question] *)
Definition list_tips_for_question (question_id : UUID) (w : world)
    : list GeneratedTip :=
  let tip_ids := Redis.smembers question_id (question_tips w) in
  omap (fun tid => get_tip tid w) (elements tip_ids).

End Storage.

(** ** core/ai/content_generation *)

(** Truthiness of [delta.content] and of [message.refusal]: neither [None]
    nor the empty string. *)
Definition truthy (s : option string) : bool :=
  match s with
  | Some (String _ _) => true
  | _ => false
  end.

(** One item of an async generator's output: a text fragment ([str]) or the
    stored object that ends the sequence. *)
Inductive chunk (A : Type) : Type :=
  | Fragment (content : string)
  | Final (stored : A).
Arguments Fragment {A} content.
Arguments Final {A} stored.

(** What one [__anext__] on an async generator gives. *)
Inductive anext_result : Type :=
  | Yielded (content : string)
  | StopAsyncIteration
  | Raised (e : exn).

Section ContentGeneration.

Variable env : environment.

(** [OpenAIQuestionContentGenerator.generate_question_content]: whatever
    the call raises is wrapped; [message.parsed] is returned as it is. *)
Definition generate_question_content (request : QuestionGenerationRequest)
    (previous_questions : list string) : M (option QuestionContent) :=
  fun w =>
  match parse_question env (chat_calls w) request previous_questions with
  | Ok generated_text => (Ok (parsed generated_text), bump_chat w)
  | Raise e =>
      (Raise (ValueError ("Failed to generate question content: "
                          +:+ str e)), bump_chat w)
  end.

(** [OpenAITipContentGenerator.generate_tip_content] *)
Definition generate_tip_content (generated_question : GeneratedQuestion)
    (previous_tips : list string) : M (option TipContent) :=
  fun w =>
  match parse_tip env (chat_calls w) generated_question previous_tips with
  | Ok generated_text =>
      if truthy (refusal generated_text) then
        (Raise (ValueError (default "" (refusal generated_text))),
         bump_chat w)
      else (Ok (parsed generated_text), bump_chat w)
  | Raise e => (Raise e, bump_chat w)
  end.

(** *** The streaming tip generator *)

(** The async generator object [generate_tip_content_stream] returns:
    created and not yet run, suspended at its [yield] with the rest of
    the provider's stream ahead, or finished. *)
Inductive tip_agen : Type :=
  | TipCreated (generated_question : GeneratedQuestion)
               (previous_tips : list string)
  | TipSuspended (rest : list (option string)) (ending : option exn)
  | TipClosed.

Definition no_current_tip : exn :=
  AttributeError "object has no attribute '_current_tip'".

(** The [async for chunk in stream] loop of the generator, up to its next
    [yield]. *)
Fixpoint tip_resume (rest : list (option string)) (ending : option exn)
    (w : world) : anext_result * tip_agen * world :=
  match rest with
  | [] =>
      match ending with
      | None => (StopAsyncIteration, TipClosed, w)
      | Some e => (Raised e, TipClosed, w)
      end
  | delta :: rest' =>
      if truthy delta then
        let content := default "" delta in
        match _current_tip w with
        | Some current =>
            (Yielded content, TipSuspended rest' ending,
             set_current_tip (Some (current +:+ content)) w)
        | None => (Raised no_current_tip, TipClosed, w)
        end
      else tip_resume rest' ending w
  end.

(** One [__anext__] on the generator. *)
Definition tip_anext (g : tip_agen) (w : world)
    : anext_result * tip_agen * world :=
  match g with
  | TipCreated generated_question previous_tips =>
      let w := set_current_tip (Some "") w in
      match tip_stream env (chat_calls w) generated_question
              previous_tips with
      | Raise e => (Raised e, TipClosed, bump_chat w)
      | Ok stream => tip_resume (deltas stream) (ending stream) (bump_chat w)
      end
  | TipSuspended rest ending => tip_resume rest ending w
  | TipClosed => (StopAsyncIteration, TipClosed, w)
  end.

(** A consumer that asks for [k] items and then abandons the generator
    (it stops earlier when the generator ends or raises): the fragments
    received, how the last [__anext__] made ended ([None] when the consumer
    walked away from a suspended or untouched generator), and the
    generator and the world left behind. *)
Fixpoint tip_take (k : nat) (g : tip_agen) (w : world)
    : list string * option anext_result * tip_agen * world :=
  match k with
  | O => ([], None, g, w)
  | S k' =>
      match tip_anext g w with
      | (Yielded content, g', w') =>
          let '(fragments, last, g'', w'') := tip_take k' g' w' in
          (content :: fragments, last, g'', w'')
      | (r, g', w') => ([], Some r, g', w')
      end
  end.

(** [async for chunk in stream] run to its end: the fragments yielded,
    the exception that ended the loop if any, and the world left. *)
Fixpoint tip_drain (rest : list (option string)) (ending : option exn)
    (w : world) : list string * option exn * world :=
  match rest with
  | [] => ([], ending, w)
  | delta :: rest' =>
      if truthy delta then
        let content := default "" delta in
        match _current_tip w with
        | Some current =>
            let '(fragments, e, w') :=
              tip_drain rest' ending
                (set_current_tip (Some (current +:+ content)) w) in
            (content :: fragments, e, w')
        | None => ([], Some no_current_tip, w)
        end
      else tip_drain rest' ending w
  end.

(** [generate_tip_content_stream] consumed by an [async for] that never
    breaks, as the services do. *)
Definition generate_tip_content_stream
    (generated_question : GeneratedQuestion) (previous_tips : list string)
    (w : world) : list string * option exn * world :=
  let w := set_current_tip (Some "") w in
  match tip_stream env (chat_calls w) generated_question previous_tips with
  | Raise e => ([], Some e, bump_chat w)
  | Ok stream => tip_drain (deltas stream) (ending stream) (bump_chat w)
  end.

(** [get_complete_tip] *)
Definition get_complete_tip : M TipContent := fun w =>
  match _current_tip w with
  | Some current => (Ok {| tip := current |}, w)
  | None => (Raise no_current_tip, w)
  end.

End ContentGeneration.

Section QuestionContentGeneration.

Variable env : environment.

(** [AsyncOpenAIQuestionContentGenerator._parse_response]: a total
    function of the text (it only splits and strips strings); nothing
    below depends on what it extracts. *)
Variable _parse_response : string -> QuestionContent.

(** The async generator object of [generate_question_content_stream];
    [current_text] is the local variable of its frame. *)
Inductive question_agen : Type :=
  | QuestionCreated (request : QuestionGenerationRequest)
                    (previous_questions : list string)
  | QuestionSuspended (rest : list (option string)) (ending : option exn)
                      (current_text : string)
  | QuestionClosed.

(** The [async for chunk in stream] loop and the parse that follows it,
    up to the next [yield]. *)
Fixpoint question_resume (rest : list (option string))
    (ending : option exn) (current_text : string) (w : world)
    : anext_result * question_agen * world :=
  match rest with
  | [] =>
      match ending with
      | None =>
          (StopAsyncIteration, QuestionClosed,
           set_current_question (Some (_parse_response current_text)) w)
      | Some e => (Raised e, QuestionClosed, w)
      end
  | delta :: rest' =>
      if truthy delta then
        let content := default "" delta in
        (Yielded content,
         QuestionSuspended rest' ending (current_text +:+ content), w)
      else question_resume rest' ending current_text w
  end.

(** One [__anext__] on the generator. *)
Definition question_anext (g : question_agen) (w : world)
    : anext_result * question_agen * world :=
  match g with
  | QuestionCreated request previous_questions =>
      let w := set_current_question None w in
      match question_stream env (chat_calls w) request
              previous_questions with
      | Raise e => (Raised e, QuestionClosed, bump_chat w)
      | Ok stream =>
          question_resume (deltas stream) (ending stream) "" (bump_chat w)
      end
  | QuestionSuspended rest ending current_text =>
      question_resume rest ending current_text w
  | QuestionClosed => (StopAsyncIteration, QuestionClosed, w)
  end.

(** A consumer that asks for [k] items and then abandons the generator. *)
Fixpoint question_take (k : nat) (g : question_agen) (w : world)
    : list string * option anext_result * question_agen * world :=
  match k with
  | O => ([], None, g, w)
  | S k' =>
      match question_anext g w with
      | (Yielded content, g', w') =>
          let '(fragments, last, g'', w'') := question_take k' g' w' in
          (content :: fragments, last, g'', w'')
      | (r, g', w') => ([], Some r, g', w')
      end
  end.

(** The generator's loop run to its end. *)
Fixpoint question_drain (rest : list (option string))
    (ending : option exn) (current_text : string) (w : world)
    : list string * option exn * world :=
  match rest with
  | [] =>
      match ending with
      | None =>
          ([], None,
           set_current_question (Some (_parse_response current_text)) w)
      | Some e => ([], Some e, w)
      end
  | delta :: rest' =>
      if truthy delta then
        let content := default "" delta in
        let '(fragments, e, w') :=
          question_drain rest' ending (current_text +:+ content) w in
        (content :: fragments, e, w')
      else question_drain rest' ending current_text w
  end.

(** [generate_question_content_stream] consumed by an [async for] that
    never breaks. *)
Definition generate_question_content_stream
    (request : QuestionGenerationRequest)
    (previous_questions : list string) (w : world)
    : list string * option exn * world :=
  let w := set_current_question None w in
  match question_stream env (chat_calls w) request previous_questions with
  | Raise e => ([], Some e, bump_chat w)
  | Ok stream =>
      question_drain (deltas stream) (ending stream) "" (bump_chat w)
  end.

(** [get_complete_question] *)
Definition get_complete_question : M QuestionContent := fun w =>
  match _current_question w with
  | None => (Raise (ValueError "No question has been generated yet"), w)
  | Some current => (Ok current, w)
  end.

End QuestionContentGeneration.

(** ** core/services.py *)

(** The retry loop the three streaming methods share word for word:
    [attempt = 0; while attempt < max_attempts: try: ... except Exception].
    [remaining] is [max_attempts - attempt]; one attempt gives the chunks it
    yielded and either the stored object (yielded last, then [return]) or
    the exception caught.  After [attempt += 1] the test
    [attempt >= max_attempts] reads [remaining' = 0]. *)
Section stream_retry.

Context {A : Type}.
Variable retry_strategy : RetryStrategy.
Variable attempt_body : world -> list (chunk A) * result A * world.

Fixpoint stream_retry_loop (remaining : nat) (w : world)
    : list (chunk A) * result unit * world :=
  match remaining with
  | O => ([], Ok tt, w)
  | S remaining' =>
      let '(out, r, w') := attempt_body w in
      match r with
      | Ok stored => (out ++ [Final stored], Ok tt, w')
      | Raise e =>
          if Nat.eqb remaining' 0 || negb (should_retry retry_strategy e)
          then (out, Raise e, w')
          else
            let '(out', r', w'') := stream_retry_loop remaining' w' in
            (out ++ out', r', w'')
      end
  end.

End stream_retry.

Module QuestionService.
Section with_fields.

Variable env : environment.
Context {embedder : Embedder}.
Variable retry_strategy : RetryStrategy.

Definition too_similar : exn :=
  ValueError "Generated question is too similar to existing ones".

(** The closure [generate_and_validate] of [_generate_unique_question] *)
Definition generate_and_validate (request : QuestionGenerationRequest)
    (previous_questions_text : list string)
    (stored_embeddings : list (list R)) : M (option QuestionContent) :=
  match stored_embeddings with
  | [] => generate_question_content env request []
  | _ :: _ =>
      let* candidate :=
        generate_question_content env request previous_questions_text in
      match candidate with
      | None =>
          raise (AttributeError
                   "'NoneType' object has no attribute 'question'")
      | Some content =>
          let candidate_embedding := get_embedding (question content) in
          match is_embedding_different_from_list candidate_embedding
                  stored_embeddings with
          | Raise e => raise e
          | Ok false => raise too_similar
          | Ok true => ret candidate
          end
      end
  end.

(** [QuestionService._generate_unique_question] *)
Definition _generate_unique_question (request : QuestionGenerationRequest)
    (previous_questions_text : list string)
    (stored_embeddings : list (list R)) : M (option QuestionContent) :=
  retry (max_attempts retry_strategy) (should_retry retry_strategy)
    (error_message retry_strategy) "generate_and_validate"
    (generate_and_validate request previous_questions_text
       stored_embeddings).

(** The [for _ in range(request.n)] loop of [generate_questions]; the
    three lists are the ones the loop appends to. *)
Fixpoint generate_questions_loop (request : QuestionGenerationRequest)
    (iterations : nat) (previous_questions_text : list string)
    (stored_embeddings : list (list R))
    (generated_questions : list GeneratedQuestion)
    : M (list GeneratedQuestion) :=
  match iterations with
  | O => ret generated_questions
  | S iterations' =>
      let* candidate_content :=
        _generate_unique_question request previous_questions_text
          stored_embeddings in
      let* generated_question := add_question env request candidate_content in
      let text := question (question_content generated_question) in
      generate_questions_loop request iterations'
        (previous_questions_text ++ [text])
        (stored_embeddings ++ [get_embedding text])
        (generated_questions ++ [generated_question])
  end.

(** [QuestionService.generate_questions] *)
Definition generate_questions (request : QuestionGenerationRequest)
    : M (list GeneratedQuestion) := fun w =>
  let stored_questions := list_questions_by_user (user_id request) w in
  let stored_embeddings :=
    map (fun q => get_embedding (question (question_content q)))
      stored_questions in
  let previous_questions_text :=
    map (fun q => question (question_content q)) stored_questions in
  generate_questions_loop request (n request) previous_questions_text
    stored_embeddings [] w.

End with_fields.
End QuestionService.

Module TipService.
Section with_fields.

Variable env : environment.
Context {embedder : Embedder}.
Variable retry_strategy : RetryStrategy.

Definition too_similar : exn :=
  ValueError "Generated tip is too similar to existing ones".

Definition does_not_exist (question_id : UUID) : exn :=
  ValueError ("Question for id " +:+ pretty question_id
              +:+ " does not exist").

(** The closure [generate_and_validate] of [generate_tip_wrapper] *)
Definition generate_and_validate (generated_question : GeneratedQuestion)
    (tip_request : TipGenerationRequest) (previous_tips_text : list string)
    (stored_embeddings : list (list R)) : M GeneratedTip :=
  let* candidate_content :=
    generate_tip_content env generated_question previous_tips_text in
  match candidate_content with
  | None =>
      raise (AttributeError "'NoneType' object has no attribute 'tip'")
  | Some content =>
      let candidate_embedding := get_embedding (tip content) in
      match py_all (are_embeddings_different candidate_embedding)
              stored_embeddings with
      | Raise e => raise e
      | Ok false => raise too_similar
      | Ok true => add_tip env tip_request candidate_content
      end
  end.

(** [TipService.generate_tip_wrapper] *)
Definition generate_tip_wrapper (generated_question : GeneratedQuestion)
    (tip_request : TipGenerationRequest) (previous_tips_text : list string)
    (stored_embeddings : list (list R)) : M GeneratedTip :=
  retry (max_attempts retry_strategy) (should_retry retry_strategy)
    (error_message retry_strategy) "generate_and_validate"
    (generate_and_validate generated_question tip_request
       previous_tips_text stored_embeddings).

(** [TipService.generate_tip] *)
Definition generate_tip (question_id : UUID) : M GeneratedTip := fun w =>
  match get_question question_id w with
  | None => (Raise (does_not_exist question_id), w)
  | Some generated_question =>
      let tip_request := Build_TipGenerationRequest question_id in
      let stored_tips := list_tips_for_question question_id w in
      match stored_tips with
      | [] =>
          (let* candidate_content :=
             generate_tip_content env generated_question [] in
           add_tip env tip_request candidate_content) w
      | _ :: _ =>
          let previous_tips_text :=
            map (fun t => tip (tip_content t)) stored_tips in
          let stored_embeddings :=
            map (fun t => get_embedding (tip (tip_content t)))
              stored_tips in
          generate_tip_wrapper generated_question tip_request
            previous_tips_text stored_embeddings w
      end
  end.

(** The body of the [try] of [generate_tip_stream], one attempt: the
    fragments forwarded, then the validation and the storing of the
    complete tip. *)
Definition stream_attempt (generated_question : GeneratedQuestion)
    (tip_request : TipGenerationRequest) (previous_tips_text : list string)
    (stored_embeddings : list (list R)) (w : world)
    : list (chunk GeneratedTip) * result GeneratedTip * world :=
  let '(fragments, e, w) :=
    generate_tip_content_stream env generated_question
      previous_tips_text w in
  match e with
  | Some e => (map Fragment fragments, Raise e, w)
  | None =>
      let '(r, w) :=
        (let* complete_tip := get_complete_tip in
         let checked : M unit :=
           match stored_embeddings with
           | [] => ret tt
           | _ :: _ =>
               let candidate_embedding :=
                 get_embedding (tip complete_tip) in
               match py_all (are_embeddings_different candidate_embedding)
                       stored_embeddings with
               | Raise e => raise e
               | Ok false => raise too_similar
               | Ok true => ret tt
               end
           end in
         let* _ := checked in
         add_tip env tip_request (Some complete_tip)) w in
      (map Fragment fragments, r, w)
  end.

(** [TipService.generate_tip_stream] (and, word for word,
    [AsyncTipService.generate_tip_stream]), consumed to its end: the
    sequence of chunks the caller receives and how the generator ends. *)
Definition generate_tip_stream (question_id : UUID) (w : world)
    : list (chunk GeneratedTip) * result unit * world :=
  match get_question question_id w with
  | None => ([], Raise (does_not_exist question_id), w)
  | Some generated_question =>
      let tip_request := Build_TipGenerationRequest question_id in
      let stored_tips := list_tips_for_question question_id w in
      let previous_tips_text :=
        map (fun t => tip (tip_content t)) stored_tips in
      let stored_embeddings :=
        map (fun t => get_embedding (tip (tip_content t))) stored_tips in
      stream_retry_loop retry_strategy
        (stream_attempt generated_question tip_request previous_tips_text
           stored_embeddings)
        (max_attempts retry_strategy) w
  end.

End with_fields.
End TipService.

Module AsyncQuestionService.
Section with_fields.

Variable env : environment.
Variable _parse_response : string -> QuestionContent.
Context {embedder : Embedder}.
Variable retry_strategy : RetryStrategy.

Definition too_similar : exn :=
  ValueError "Generated question is too similar to existing ones".

(** The body of the [try] of [generate_question_stream], one attempt. *)
Definition stream_attempt (request : QuestionGenerationRequest)
    (previous_questions_text : list string)
    (stored_embeddings : list (list R)) (w : world)
    : list (chunk GeneratedQuestion) * result GeneratedQuestion * world :=
  let '(fragments, e, w) :=
    generate_question_content_stream env _parse_response request
      previous_questions_text w in
  match e with
  | Some e => (map Fragment fragments, Raise e, w)
  | None =>
      let '(r, w) :=
        (let* complete_question := get_complete_question in
         let checked : M unit :=
           match stored_embeddings with
           | [] => ret tt
           | _ :: _ =>
               let candidate_embedding :=
                 get_embedding (question complete_question) in
               match is_embedding_different_from_list candidate_embedding
                       stored_embeddings with
               | Raise e => raise e
               | Ok false => raise too_similar
               | Ok true => ret tt
               end
           end in
         let* _ := checked in
         add_question env request (Some complete_question)) w in
      (map Fragment fragments, r, w)
  end.

(** [AsyncQuestionService.generate_question_stream], consumed to its end *)
Definition generate_question_stream (request : QuestionGenerationRequest)
    (w : world) : list (chunk GeneratedQuestion) * result unit * world :=
  let stored_questions := list_questions_by_user (user_id request) w in
  let stored_embeddings :=
    map (fun q => get_embedding (question (question_content q)))
      stored_questions in
  let previous_questions_text :=
    map (fun q => question (question_content q)) stored_questions in
  stream_retry_loop retry_strategy
    (stream_attempt request previous_questions_text stored_embeddings)
    (max_attempts retry_strategy) w.

End with_fields.
End AsyncQuestionService.

(** * Vocabulary of the statements *)

Section failing_attempts.

Context {T : Type}.
Variable retry_strategy : RetryStrategy.
Variable operation : M T.

(** [attempts_fail k w w' last]: started in the world [w], [k] calls of
    the operation in a row each raise an exception that the retry
    predicate accepts; [w'] is the world after the last of them and
    [last] the exception it raised ([None] when [k = 0]). *)
Inductive attempts_fail : nat -> world -> world -> option exn -> Prop :=
  | attempts_fail_O w : attempts_fail 0 w w None
  | attempts_fail_S k w e w1 w2 last :
      operation w = (Raise e, w1) ->
      should_retry retry_strategy e = true ->
      attempts_fail k w1 w2 last ->
      attempts_fail (S k) w w2 (Some (default e last)).

End failing_attempts.

Section failing_stream_attempts.

Context {A : Type}.
Variable retry_strategy : RetryStrategy.
Variable attempt_body : world -> list (chunk A) * result A * world.

(** The same for the attempts of a streaming method, with the chunks the
    failed attempts have forwarded to the caller. *)
Inductive stream_attempts_fail
    : nat -> world -> list (chunk A) -> world -> option exn -> Prop :=
  | stream_attempts_fail_O w : stream_attempts_fail 0 w [] w None
  | stream_attempts_fail_S k w out e w1 outs w2 last :
      attempt_body w = (out, Raise e, w1) ->
      should_retry retry_strategy e = true ->
      stream_attempts_fail k w1 outs w2 last ->
      stream_attempts_fail (S k) w (out ++ outs) w2
        (Some (default e last)).

End failing_stream_attempts.

(** The text of a stored question, of a stored tip. *)
Definition question_text (q : GeneratedQuestion) : string :=
  question (question_content q).
Definition tip_text (t : GeneratedTip) : string := tip (tip_content t).

(** A stored question is persisted and indexed under a user: its hash is
    at its key and its identifier is in the user's set. *)
Definition persisted (user : UUID) (q : GeneratedQuestion) (w : world)
    : Prop :=
  get_question (question_id_of q) w = Some q /\
  question_id_of q ∈ Redis.smembers user (user_questions w).

(** The fragments of a stream put end to end. *)
Fixpoint concat_fragments (fragments : list string) : string :=
  match fragments with
  | [] => ""
  | f :: fragments' => f +:+ concat_fragments fragments'
  end.

(** What [__anext__] gives when a generator's loop ends with [ending]. *)
Definition anext_of_ending (ending : option exn) : anext_result :=
  match ending with
  | None => StopAsyncIteration
  | Some e => Raised e
  end.

Section accepted_run.

Variable env : environment.
Context {embedder : Embedder}.
Variable retry_strategy : RetryStrategy.
Variable request : QuestionGenerationRequest.

(** [accepted_run k previous stored w items previous' stored' w']: from
    the world [w] and the context [previous], [stored], the loop of
    [generate_questions] accepts and stores [k] questions in a row,
    [items]; [previous'] and [stored'] are the context and [w'] the world
    it has reached then. *)
Inductive accepted_run
    : nat -> list string -> list (list R) -> world ->
      list GeneratedQuestion -> list string -> list (list R) -> world ->
      Prop :=
  | accepted_run_O previous stored w :
      accepted_run 0 previous stored w [] previous stored w
  | accepted_run_S k previous stored w candidate w1 q w2 items
                   previous' stored' w3 :
      QuestionService._generate_unique_question env retry_strategy request
        previous stored w = (Ok candidate, w1) ->
      add_question env request candidate w1 = (Ok q, w2) ->
      accepted_run k (previous ++ [question_text q])
        (stored ++ [get_embedding (question_text q)]) w2
        items previous' stored' w3 ->
      accepted_run (S k) previous stored w (q :: items)
        previous' stored' w3.

End accepted_run.

(** * Concrete inputs *)

Definition sample_request : QuestionGenerationRequest :=
  {| user_id := 7%N; question_type := exercise; job_title := data_analyst;
     skill_to_test := "SQL"; n := 2 |}.

Definition sample_content (text : string) : QuestionContent :=
  {| question := text; expected_answer := "N/A";
     evaluation_criteria := "N/A"; expected_duration := "5 minutes" |}.

Definition sample_question : GeneratedQuestion :=
  {| question_content := sample_content "What is a join?";
     question_metadata := {| created_at := 0%N; app_version := "0.1.0" |};
     question_id_of := 1%N; question_request := sample_request |}.

Definition sample_tip : GeneratedTip :=
  {| tip_content := {| tip := "Think of keys." |};
     tip_metadata := {| created_at := 0%N; app_version := "0.1.0" |};
     tip_id_of := 2%N;
     tip_request := {| question_id := 1%N |} |}.

(** The store after [flushall], nothing called yet, no attribute set. *)
Definition empty_world : world :=
  {| questions := ∅; user_questions := ∅; tips := ∅; question_tips := ∅;
     uuid_calls := 0; clock_calls := 0; chat_calls := 0;
     _current_tip := None; _current_question := None |}.

(** The store holding [sample_question] for user 7. *)
Definition world_with_question : world :=
  set_question_store
    {[ 1%N := {| value := sample_question; ttl := Some 3600%positive |} ]}
    {[ 7%N := {| value := {[ 1%N ]}; ttl := Some 3600%positive |} ]}
    empty_world.

(** The same with [sample_tip] stored for the question. *)
Definition world_with_tip : world :=
  set_tip_store
    {[ 2%N := {| value := sample_tip; ttl := Some 3600%positive |} ]}
    {[ 1%N := {| value := {[ 2%N ]}; ttl := Some 3600%positive |} ]}
    world_with_question.

(** Embedders for tests: one for which every pair is a duplicate, one for
    which no pair is. *)
Definition all_similar : Embedder :=
  {| get_embedding := fun _ => [];
     are_embeddings_different := fun _ _ => Ok false |}.

Definition all_different : Embedder :=
  {| get_embedding := fun _ => [];
     are_embeddings_different := fun _ _ => Ok true |}.

(** A provider whose every call fails with the same error; identifiers
    count up from 10. *)
Definition failing_provider : environment :=
  {| uuid1 := fun k => N.of_nat (10 + k);
     now := fun k => N.of_nat k;
     parse_question := fun _ _ _ => Raise (ProviderError "connection lost");
     parse_tip := fun _ _ _ => Raise (ProviderError "connection lost");
     question_stream := fun _ _ _ => Raise (ProviderError "connection lost");
     tip_stream := fun _ _ _ => Raise (ProviderError "connection lost");
     EXPIRATION_SECONDS := 3600%positive |}.

(** A provider whose first identifier is [first] and whose answers are
    never refused. *)
Definition colliding_provider (first : UUID) : environment :=
  {| uuid1 := fun k => match k with O => first | S _ => N.of_nat (10 + k) end;
     now := fun k => N.of_nat k;
     parse_question := fun _ _ _ =>
       Ok {| refusal := None; parsed := Some (sample_content "Why?") |};
     parse_tip := fun _ _ _ =>
       Ok {| refusal := None; parsed := Some {| tip := "Draw it." |} |};
     question_stream := fun _ _ _ =>
       Ok {| deltas := [Some "Why?"]; ending := None |};
     tip_stream := fun _ _ _ =>
       Ok {| deltas := [Some "Draw "; None; Some "it."]; ending := None |};
     EXPIRATION_SECONDS := 3600%positive |}.

Definition two_attempts : RetryStrategy :=
  {| max_attempts := 2; should_retry := default_should_retry;
     error_message := "Operation failed" |}.

Definition five_attempts : RetryStrategy :=
  {| max_attempts := 5; should_retry := default_should_retry;
     error_message := "Operation failed" |}.

(** A provider that answers the first request for a question and then
    loses the connection. *)
Definition flaky_provider : environment :=
  {| uuid1 := fun k => N.of_nat (10 + k);
     now := fun k => N.of_nat k;
     parse_question := fun k _ _ =>
       match k with
       | O => Ok {| refusal := None; parsed := Some (sample_content "A") |}
       | S _ => Raise (ProviderError "connection lost")
       end;
     parse_tip := fun _ _ _ => Raise (ProviderError "connection lost");
     question_stream := fun _ _ _ => Raise (ProviderError "connection lost");
     tip_stream := fun _ _ _ => Raise (ProviderError "connection lost");
     EXPIRATION_SECONDS := 3600%positive |}.

(** A provider that writes the question "A" first and "B" from then on. *)
Definition steady_provider : environment :=
  {| uuid1 := fun k => N.of_nat (10 + k);
     now := fun k => N.of_nat k;
     parse_question := fun k _ _ =>
       match k with
       | O => Ok {| refusal := None; parsed := Some (sample_content "A") |}
       | S _ => Ok {| refusal := None; parsed := Some (sample_content "B") |}
       end;
     parse_tip := fun _ _ _ =>
       Ok {| refusal := None; parsed := Some {| tip := "Draw it." |} |};
     question_stream := fun _ _ _ =>
       Ok {| deltas := [Some "B"]; ending := None |};
     tip_stream := fun _ _ _ =>
       Ok {| deltas := [Some "Draw "; None; Some "it."]; ending := None |};
     EXPIRATION_SECONDS := 3600%positive |}.

(** An embedding model that sends "A" and every other text to two
    orthogonal unit vectors. *)
Definition axis_embedding (text : string) : list R :=
  if String.eqb text "A" then [1%R; 0%R] else [0%R; 1%R].

(** The first two questions these providers get stored. *)
Definition question_A : GeneratedQuestion :=
  {| question_content := sample_content "A";
     question_metadata := {| created_at := 0%N; app_version := "0.1.0" |};
     question_id_of := 10%N; question_request := sample_request |}.

Definition question_B : GeneratedQuestion :=
  {| question_content := sample_content "B";
     question_metadata := {| created_at := 1%N; app_version := "0.1.0" |};
     question_id_of := 11%N; question_request := sample_request |}.

(** The world once [question_A] is stored, and once [question_B] is too. *)
Definition world_A (env : environment) : world :=
  (add_question env sample_request (Some (sample_content "A"))
     (bump_chat empty_world)).2.

Definition world_AB (env : environment) : world :=
  (add_question env sample_request (Some (sample_content "B"))
     (bump_chat (world_A env))).2.

(** A provider that refuses to write tips. *)
Definition refusing_provider : environment :=
  {| uuid1 := fun k => N.of_nat (10 + k);
     now := fun k => N.of_nat k;
     parse_question := fun _ _ _ =>
       Ok {| refusal := Some "I cannot help with that."; parsed := None |};
     parse_tip := fun _ _ _ =>
       Ok {| refusal := Some "I cannot help with that."; parsed := None |};
     question_stream := fun _ _ _ => Raise (ProviderError "refused");
     tip_stream := fun _ _ _ => Raise (ProviderError "refused");
     EXPIRATION_SECONDS := 3600%positive |}.

(** A provider whose first streamed tip repeats the stored one and whose
    second is new. *)
Definition repeating_provider : environment :=
  {| uuid1 := fun k => N.of_nat (10 + k);
     now := fun k => N.of_nat k;
     parse_question := fun _ _ _ => Raise (ProviderError "connection lost");
     parse_tip := fun _ _ _ => Raise (ProviderError "connection lost");
     question_stream := fun _ _ _ =>
       Ok {| deltas := [Some "Qu"; Some ""; Some "estion: B"];
             ending := None |};
     tip_stream := fun k _ _ =>
       match k with
       | O => Ok {| deltas := [Some "Think "; Some "of keys."];
                    ending := None |}
       | S _ => Ok {| deltas := [Some "Draw "; None; Some "it."];
                      ending := None |}
       end;
     EXPIRATION_SECONDS := 3600%positive |}.

(** An embedder for tests that tells texts apart by their length. *)
Definition by_length : Embedder :=
  {| get_embedding := fun text => repeat 0%R (String.length text);
     are_embeddings_different := fun e1 e2 =>
       Ok (negb (Nat.eqb (length e1) (length e2))) |}.

(** The tip the second attempt of [repeating_provider] gets stored. *)
Definition tip_draw_it : GeneratedTip :=
  {| tip_content := {| tip := "Draw it." |};
     tip_metadata := {| created_at := 0%N; app_version := "0.1.0" |};
     tip_id_of := 10%N;
     tip_request := {| question_id := 1%N |} |}.

(** * More concrete inputs *)

(** An operation rejected twice and accepted at its third call, and one
    that meets a provider error at its second call; the calls are counted
    in [chat_calls]. *)
Definition third_call_succeeds : M string := fun w =>
  match chat_calls w with
  | S (S _) => (Ok "third", bump_chat w)
  | _ => (Raise (ValueError "too similar"), bump_chat w)
  end.

Definition second_call_breaks : M unit := fun w =>
  match chat_calls w with
  | O => (Raise (ValueError "too similar"), bump_chat w)
  | S _ => (Raise (ProviderError "connection lost"), bump_chat w)
  end.

(** A strategy that retries [ValueError]s only. *)
Definition value_errors_only : RetryStrategy :=
  {| max_attempts := 5;
     should_retry := fun e =>
       match e with ValueError _ => true | _ => false end;
     error_message := "Operation failed" |}.

(** A stored tip is persisted and indexed under a question. *)
Definition persisted_tip (question : UUID) (t : GeneratedTip) (w : world)
    : Prop :=
  get_tip (tip_id_of t) w = Some t /\
  tip_id_of t ∈ Redis.smembers question (question_tips w).

(** The question store is consistent: the hash at a key carries that key as
    its identifier and is indexed under the user of its request, and every
    identifier in a user's set has a hash, whose request is by that user. *)
Definition question_store_consistent (w : world) : Prop :=
  (forall id q, get_question id w = Some q ->
     question_id_of q = id /\
     id ∈ Redis.smembers (user_id (question_request q)) (user_questions w))
  /\
  (forall user id, id ∈ Redis.smembers user (user_questions w) ->
     exists q, get_question id w = Some q /\
               user_id (question_request q) = user).

(** The two worlds hold the same store: the four families of keys agree. *)
Definition same_stores (w w' : world) : Prop :=
  questions w' = questions w /\ user_questions w' = user_questions w /\
  tips w' = tips w /\ question_tips w' = question_tips w.

(** The chunks of an output that are text fragments only. *)
Definition only_fragments {A} (out : list (chunk A)) : Prop :=
  exists fragments, out = map Fragment fragments.

(** One attempt of the tip stream for the question of [world_with_tip],
    with [repeating_provider] and the embedder [by_length]. *)
Definition repeating_attempt
    : world -> list (chunk GeneratedTip) * result GeneratedTip * world :=
  TipService.stream_attempt repeating_provider (embedder := by_length)
    sample_question (Build_TipGenerationRequest 1%N)
    (map tip_text (list_tips_for_question 1%N world_with_tip))
    (map (fun t => @get_embedding by_length (tip_text t))
       (list_tips_for_question 1%N world_with_tip)).

(** The contents of the deltas that are neither missing nor empty. *)
Definition truthy_contents (deltas : list (option string)) : list string :=
  omap (fun delta => if truthy delta then delta else None) deltas.

(** * api/routes.py *)

(** What an endpoint gives: the body of a response with status 200, or the
    [HTTPException] it raises. *)
Inductive http_result (A : Type) : Type :=
  | Response (body : A)
  | HTTPException (status_code : nat) (detail : string).
Arguments Response {A} body.
Arguments HTTPException {A} status_code detail.

(** The [retry_strategy] of a service built without arguments:
    [RetryStrategy(max_attempts=5)], handed to [@retry] field by field. *)
Definition default_retry_strategy : RetryStrategy :=
  {| max_attempts := 5; should_retry := default_should_retry;
     error_message := "Operation failed" |}.

Section Routes.

Variable env : environment.
Context {embedder : Embedder}.

(** [generate_questions_endpoint]: [QuestionService().generate_questions],
    any exception answered with status 500. *)
Definition generate_questions_endpoint
    (input_data : QuestionGenerationRequest) (w : world)
    : http_result (list GeneratedQuestion) * world :=
  match QuestionService.generate_questions env default_retry_strategy
          input_data w with
  | (Ok generated, w') => (Response generated, w')
  | (Raise e, w') => (HTTPException 500 (str e), w')
  end.

(** [generate_tip_endpoint]: [except ValueError] answers 404, the
    [except Exception] after it 500. *)
Definition generate_tip_endpoint (input_data : TipGenerationRequest)
    (w : world) : http_result GeneratedTip * world :=
  match TipService.generate_tip env default_retry_strategy
          (question_id input_data) w with
  | (Ok generated, w') => (Response generated, w')
  | (Raise (ValueError msg), w') => (HTTPException 404 msg, w')
  | (Raise e, w') => (HTTPException 500 (str e), w')
  end.

End Routes.

(** * storage.singleton *)

(** [get_instance] of the [singleton] decorator.  The dict [instances] of
    the closure only ever has the decorated class as a key: [None] is the
    empty dict, [Some i] the dict that maps the class to [i]. *)
Definition get_instance {Args Instance : Type} (cls : Args -> Instance)
    (args : Args) (instances : option Instance)
    : Instance * option Instance :=
  match instances with
  | None => let instance := cls args in (instance, Some instance)
  | Some instance => (instance, instances)
  end.

(** Calls of [get_instance] one after the other, each with its arguments. *)
Fixpoint get_instances {Args Instance : Type} (cls : Args -> Instance)
    (calls : list Args) (instances : option Instance)
    : list Instance * option Instance :=
  match calls with
  | [] => ([], instances)
  | args :: calls' =>
      let '(instance, instances') := get_instance cls args instances in
      let '(rest, instances'') := get_instances cls calls' instances' in
      (instance :: rest, instances'')
  end.

(** * Properties *)

(** ** Cosine similarity and the difference check *)

Section EmbeddingFacts.

Import Embeddings.
Open Scope R_scope.

Lemma Rltb_true x y : Rltb x y = true <-> x < y.
Proof. unfold Rltb. destruct (Rlt_dec x y); split; intros; done. Qed.

Lemma Rltb_false x y : Rltb x y = false <-> y <= x.
Proof.
  unfold Rltb. destruct (Rlt_dec x y); split; intros; try done; lra.
Qed.

Lemma Reqb_true x y : Reqb x y = true <-> x = y.
Proof. unfold Reqb. destruct (Req_dec_T x y); split; intros; done. Qed.

Lemma Reqb_false x y : Reqb x y = false <-> x <> y.
Proof. unfold Reqb. destruct (Req_dec_T x y); split; intros; done. Qed.

Lemma dot_is_Some v1 v2 : length v1 = length v2 -> is_Some (dot v1 v2).
Proof.
  revert v2. induction v1 as [|x v1 IH]; intros [|y v2] Hlen;
    simpl in *; try discriminate; [by eexists|].
  destruct (IH v2) as [s Hs]; [congruence|]. rewrite Hs. by eexists.
Qed.

Lemma dot_comm v1 v2 : dot v1 v2 = dot v2 v1.
Proof.
  revert v2. induction v1 as [|x v1 IH]; intros [|y v2]; simpl; try done.
  rewrite IH. destruct (dot v2 v1); [|done]. f_equal. lra.
Qed.

Lemma dot_self v : dot v v = Some (sum_squares v).
Proof. induction v as [|x v IH]; simpl; [done|]. by rewrite IH. Qed.

Lemma sum_squares_nonneg v : 0 <= sum_squares v.
Proof.
  induction v as [|x v IH]; simpl; [lra|].
  pose proof (Rle_0_sqr x) as Hx. unfold Rsqr in Hx. lra.
Qed.

Lemma norm_sqr v : norm v * norm v = sum_squares v.
Proof. unfold norm. apply sqrt_sqrt, sum_squares_nonneg. Qed.

(** The similarity does not depend on the order of its arguments. *)
Lemma _cosine_similarity_sym v1 v2 s :
  _cosine_similarity v1 v2 = Ok s -> _cosine_similarity v2 v1 = Ok s.
Proof.
  unfold _cosine_similarity. rewrite (dot_comm v2 v1).
  destruct (dot v1 v2) as [d|]; [|done].
  rewrite (orb_comm (Reqb (norm v2) 0)), (Rmult_comm (norm v2)). done.
Qed.

Lemma are_embeddings_different_sym t v1 v2 b :
  are_embeddings_different t v1 v2 = Ok b ->
  are_embeddings_different t v2 v1 = Ok b.
Proof.
  unfold are_embeddings_different.
  destruct (_cosine_similarity v1 v2) as [s|e] eqn:Hs; [|done].
  by rewrite (_cosine_similarity_sym _ _ _ Hs).
Qed.

Lemma are_embeddings_different_true t v1 v2 :
  are_embeddings_different t v1 v2 = Ok true <->
  exists s, _cosine_similarity v1 v2 = Ok s /\ s < t.
Proof.
  unfold are_embeddings_different.
  destruct (_cosine_similarity v1 v2) as [s|e]; split.
  - intros [= Hlt%Rltb_true]. eauto.
  - intros (s' & [= <-] & Hlt). f_equal. by apply Rltb_true.
  - done.
  - by intros (s' & ? & _).
Qed.

(** C3 -- the pair-difference check reports "different" exactly when the
    cosine similarity the code computes is strictly below the threshold;
    a similarity equal to the threshold is reported as not different. *)
Theorem C3_different_iff_strictly_below (t : R) (v1 v2 : list R) (s : R) :
  _cosine_similarity v1 v2 = Ok s ->
  (are_embeddings_different t v1 v2 = Ok true <-> s < t) /\
  (are_embeddings_different t v1 v2 = Ok false <-> t <= s) /\
  (s = t -> are_embeddings_different t v1 v2 = Ok false).
Proof.
  intros Hs. unfold are_embeddings_different. rewrite Hs.
  split; [|split].
  - rewrite <- Rltb_true. split; [by intros [= ->]|by intros ->].
  - rewrite <- Rltb_false. split; [by intros [= ->]|by intros ->].
  - intros ->. f_equal. apply Rltb_false. lra.
Qed.

Lemma sqrt_1_nonzero : sqrt (1 * 1 + 0) <> 0.
Proof.
  replace (1 * 1 + 0) with 1 by lra. rewrite sqrt_1. lra.
Qed.

Lemma sqrt_0_zero : sqrt (0 * 0 + 0) = 0.
Proof. replace (0 * 0 + 0) with 0 by lra. apply sqrt_0. Qed.

Lemma _cosine_similarity_unit : _cosine_similarity [1] [1] = Ok 1.
Proof.
  unfold _cosine_similarity, norm. simpl.
  destruct (Reqb (sqrt (1 * 1 + 0)) 0) eqn:Hz.
  { apply Reqb_true in Hz. by destruct sqrt_1_nonzero. }
  simpl. f_equal. replace (1 * 1 + 0) with 1 by lra. rewrite sqrt_1.
  lra.
Qed.

(** The boundary case of C3 at the vectors [[1]], [[1]] and threshold 1. *)
Lemma C3_witness :
  _cosine_similarity [1] [1] = Ok 1 /\
  are_embeddings_different 1 [1] [1] = Ok false.
Proof.
  split; [apply _cosine_similarity_unit|].
  apply (C3_different_iff_strictly_below 1 [1] [1] 1
           _cosine_similarity_unit).
  reflexivity.
Defined.

Lemma _cosine_similarity_zero_norm v1 v2 :
  length v1 = length v2 -> norm v1 = 0 \/ norm v2 = 0 ->
  _cosine_similarity v1 v2 = Ok 0.
Proof.
  intros Hlen Hz. unfold _cosine_similarity.
  destruct (dot_is_Some v1 v2 Hlen) as [d ->]. simpl.
  destruct Hz as [Hz|Hz]; apply Reqb_true in Hz; rewrite Hz;
    [done|by rewrite orb_true_r].
Qed.

Lemma norm_zero_vector : norm [0] = 0.
Proof. unfold norm. simpl. apply sqrt_0_zero. Qed.

(** A pair with a zero norm passes the check for every threshold
    above 0. *)
Lemma zero_norm_pair_different t v1 v2 :
  0 < t -> length v1 = length v2 -> norm v1 = 0 \/ norm v2 = 0 ->
  are_embeddings_different t v1 v2 = Ok true.
Proof.
  intros Ht Hlen Hz. unfold are_embeddings_different.
  rewrite (_cosine_similarity_zero_norm v1 v2 Hlen Hz). f_equal.
  by apply Rltb_true.
Qed.

(** C7 as stated fails at the threshold 0, which the field's validation
    ([ge=0.0]) admits: the similarity of a zero-norm pair is 0, and
    [0 < 0] is false, so the pair is reported as not different. *)
Lemma C7_counterexample :
  valid_threshold 0 /\ norm [0] = 0 /\
  _cosine_similarity [0] [1] = Ok 0 /\
  are_embeddings_different 0 [0] [1] = Ok false.
Proof.
  assert (_cosine_similarity [0] [1] = Ok 0) as Hs.
  { apply _cosine_similarity_zero_norm; [done|left; apply norm_zero_vector]. }
  repeat split; [unfold valid_threshold; lra..|apply norm_zero_vector|done|].
  unfold are_embeddings_different. rewrite Hs. f_equal.
  apply Rltb_false. lra.
Qed.

(** C7, amended -- for two embedding vectors of the same dimension of
    which at least one has zero norm, the similarity is 0, and the pair is
    reported as different for every threshold above 0. *)
Theorem C7_zero_norm_is_different (t : R) (v1 v2 : list R) :
  0 < t -> length v1 = length v2 -> norm v1 = 0 \/ norm v2 = 0 ->
  _cosine_similarity v1 v2 = Ok 0 /\
  are_embeddings_different t v1 v2 = Ok true.
Proof.
  intros Ht Hlen Hz.
  split; [by apply _cosine_similarity_zero_norm|].
  by apply zero_norm_pair_different.
Qed.

Lemma C7_witness :
  _cosine_similarity [0] [1] = Ok 0 /\
  are_embeddings_different (8 / 10) [0] [1] = Ok true.
Proof.
  apply (C7_zero_norm_is_different (8 / 10) [0] [1]).
  - lra.
  - reflexivity.
  - left. apply norm_zero_vector.
Defined.



Lemma norm_unit_vector : norm [1] <> 0.
Proof. unfold norm. simpl. apply sqrt_1_nonzero. Qed.


End EmbeddingFacts.

(** ** The retry loops *)

Section RetryFacts.

Context {T : Type}.
Variable rs : RetryStrategy.
Variable name : string.
Variable op : M T.

Lemma attempt_loop_fail k w w' last :
  attempts_fail rs op k w w' last ->
  forall prev,
    Retry.attempt_loop rs op k prev w
    = (inr (match last with Some e => Some e | None => prev end), w').
Proof.
  induction 1 as [w|k w e w1 w2 last Hop Hretry _ IH]; intros prev;
    simpl; [done|].
  rewrite Hop, Hretry. simpl. rewrite IH. by destruct last.
Qed.

Lemma execute_exhausted w w' e :
  attempts_fail rs op (max_attempts rs) w w' (Some e) ->
  Retry.execute rs name op w
  = (Raise (ValueError (Retry.exhausted_message rs name (Some e))), w').
Proof.
  intros H. unfold Retry.execute.
  by rewrite (attempt_loop_fail _ _ _ _ H None).
Qed.

(** A result of [execute] is the result of one call of the operation. *)
Lemma attempt_loop_ok k prev w r w' :
  Retry.attempt_loop rs op k prev w = (inl r, w') ->
  exists w0, op w0 = (Ok r, w').
Proof.
  revert prev w. induction k as [|k IH]; intros prev w; simpl; [done|].
  destruct (op w) as [[a|e] w1] eqn:Hop.
  - intros [= <- <-]. eauto.
  - destruct (negb (should_retry rs e)); [done|]. apply IH.
Qed.

Lemma execute_ok w r w' :
  Retry.execute rs name op w = (Ok r, w') ->
  exists w0, op w0 = (Ok r, w').
Proof.
  unfold Retry.execute.
  destruct (Retry.attempt_loop rs op (max_attempts rs) None w)
    as [[a|last] w1] eqn:Hloop; [|done].
  intros [= <- <-]. by eapply attempt_loop_ok.
Qed.

(** Whatever [execute] raises is the [ValueError] built after the loop. *)
Lemma execute_raise w e w' :
  Retry.execute rs name op w = (Raise e, w') ->
  exists last, e = ValueError (Retry.exhausted_message rs name last).
Proof.
  unfold Retry.execute.
  destruct (Retry.attempt_loop rs op (max_attempts rs) None w)
    as [[a|last] w1]; [done|].
  intros [= <- <-]. eauto.
Qed.

(** A property of the world that every call of the operation keeps is
    kept by the whole loop. *)
Lemma attempt_loop_preserves (P : world -> world -> Prop) :
  (forall w, P w w) ->
  (forall w1 w2 w3, P w1 w2 -> P w2 w3 -> P w1 w3) ->
  (forall w, P w (op w).2) ->
  forall k prev w, P w (Retry.attempt_loop rs op k prev w).2.
Proof.
  intros Hrefl Htrans Hop. induction k as [|k IH]; intros prev w; simpl;
    [done|].
  specialize (Hop w). destruct (op w) as [[a|e] w1]; simpl in *; [done|].
  destruct (negb (should_retry rs e)); simpl; [done|].
  eapply Htrans; [exact Hop|apply IH].
Qed.

Lemma execute_preserves (P : world -> world -> Prop) :
  (forall w, P w w) ->
  (forall w1 w2 w3, P w1 w2 -> P w2 w3 -> P w1 w3) ->
  (forall w, P w (op w).2) ->
  forall w, P w (Retry.execute rs name op w).2.
Proof.
  intros Hrefl Htrans Hop w. unfold Retry.execute.
  pose proof (attempt_loop_preserves P Hrefl Htrans Hop
                (max_attempts rs) None w) as H.
  by destruct (Retry.attempt_loop rs op (max_attempts rs) None w)
    as [[a|last] w1].
Qed.

(** With one provider call per attempt, [k] failed attempts are [k]
    provider calls. *)
Lemma attempts_fail_chat_calls k w w' last :
  (forall w0, chat_calls (op w0).2 = S (chat_calls w0)) ->
  attempts_fail rs op k w w' last ->
  chat_calls w' = chat_calls w + k.
Proof.
  intros Hop. induction 1 as [w|k w e w1 w2 last Hw _ _ IH]; [lia|].
  rewrite IH. specialize (Hop w). rewrite Hw in Hop. simpl in Hop. lia.
Qed.

End RetryFacts.

Section StreamRetryFacts.

Context {A : Type}.
Variable rs : RetryStrategy.
Variable body : world -> list (chunk A) * result A * world.

Lemma stream_retry_loop_exhausted k w outs w' last :
  stream_attempts_fail rs body k w outs w' last ->
  forall e, last = Some e ->
    stream_retry_loop rs body k w = (outs, Raise e, w').
Proof.
  induction 1 as [w|k w out e w1 outs w2 last Hbody Hretry Hrest IH];
    intros e' [= <-]; [].
  cbn [stream_retry_loop]. rewrite Hbody, Hretry.
  inversion Hrest as [w0|k0 w0 e0 w3 w4 outs0 w5 last0 ? ? ?]; subst.
  - simpl. by rewrite app_nil_r.
  - rewrite (IH _ eq_refl). done.
Qed.

Lemma stream_attempts_fail_chat_calls k w outs w' last :
  (forall w0, chat_calls (body w0).2 = S (chat_calls w0)) ->
  stream_attempts_fail rs body k w outs w' last ->
  chat_calls w' = chat_calls w + k.
Proof.
  intros Hop. induction 1 as [w|k w out e w1 outs w2 last Hw _ _ IH];
    [lia|].
  rewrite IH. specialize (Hop w). rewrite Hw in Hop. simpl in Hop. lia.
Qed.

(** A stream that ends with a stored object got it, and the fragments
    before it, from its last attempt. *)
Lemma stream_retry_loop_ok k w out w' :
  0 < k ->
  stream_retry_loop rs body k w = (out, Ok tt, w') ->
  exists earlier w0 last_out stored,
    body w0 = (last_out, Ok stored, w') /\
    out = earlier ++ last_out ++ [Final stored].
Proof.
  revert w out. induction k as [|k IH]; intros w out Hk; [lia|]. simpl.
  destruct (body w) as [[o [stored|e]] w1] eqn:Hbody.
  - intros [= <- <-]. exists [], w, o, stored. done.
  - destruct (Nat.eqb k 0 || negb (should_retry rs e)) eqn:Hstop; [done|].
    destruct (stream_retry_loop rs body k w1) as [[o' r'] w2] eqn:Hloop.
    intros [= <- -> <-].
    apply orb_false_iff in Hstop as [Hk0%Nat.eqb_neq _].
    destruct (IH w1 o' ltac:(lia) Hloop)
      as (earlier & w0 & last_out & stored & Hb & ->).
    exists (o ++ earlier), w0, last_out, stored.
    by rewrite <- app_assoc.
Qed.

End StreamRetryFacts.

(** ** One provider call per attempt *)

Section ProviderCalls.

Variable env : environment.
Context {embedder : Embedder}.

Lemma generate_question_content_world request previous w :
  (generate_question_content env request previous w).2 = bump_chat w.
Proof.
  unfold generate_question_content.
  by destruct (parse_question env (chat_calls w) request previous).
Qed.

Lemma generate_tip_content_world generated_question previous w :
  (generate_tip_content env generated_question previous w).2 = bump_chat w.
Proof.
  unfold generate_tip_content.
  destruct (parse_tip env (chat_calls w) generated_question previous)
    as [m|e]; [|done].
  by destruct (truthy (refusal m)).
Qed.

Lemma add_question_chat_calls request content w :
  chat_calls (add_question env request content w).2 = chat_calls w.
Proof.
  unfold add_question.
  destruct (Redis.exists_ _ _); [done|]. by destruct content.
Qed.

Lemma add_tip_chat_calls request content w :
  chat_calls (add_tip env request content w).2 = chat_calls w.
Proof.
  unfold add_tip.
  destruct (Redis.exists_ _ _); [done|]. by destruct content.
Qed.

Lemma question_generate_and_validate_world request previous stored w :
  (QuestionService.generate_and_validate env request previous stored w).2
  = bump_chat w.
Proof.
  unfold QuestionService.generate_and_validate.
  destruct stored as [|s stored];
    [apply generate_question_content_world|].
  unfold bind.
  pose proof (generate_question_content_world request previous w) as Hw.
  destruct (generate_question_content env request previous w)
    as [[[content|]|e] w1]; simpl in *; subst; try done.
  by destruct (is_embedding_different_from_list _ _) as [[]|].
Qed.

Lemma tip_generate_and_validate_chat_calls gq request previous stored w :
  chat_calls
    (TipService.generate_and_validate env gq request previous stored w).2
  = S (chat_calls w).
Proof.
  unfold TipService.generate_and_validate, bind.
  pose proof (generate_tip_content_world gq previous w) as Hw.
  destruct (generate_tip_content env gq previous w)
    as [[[content|]|e] w1]; simpl in *; subst; try done.
  destruct (py_all _ _) as [[]|]; try done.
  by rewrite add_tip_chat_calls.
Qed.

Lemma tip_drain_chat_calls rest ending w :
  chat_calls (tip_drain rest ending w).2 = chat_calls w.
Proof.
  revert w. induction rest as [|delta rest IH]; intros w; simpl; [done|].
  destruct (truthy delta); [|apply IH].
  destruct (_current_tip w) as [current|]; [|done].
  specialize (IH (set_current_tip (Some (current +:+ default "" delta)) w)).
  by destruct (tip_drain rest ending _) as [[fragments e] w'].
Qed.

Lemma generate_tip_content_stream_chat_calls gq previous w :
  chat_calls (generate_tip_content_stream env gq previous w).2
  = S (chat_calls w).
Proof.
  unfold generate_tip_content_stream. simpl.
  destruct (tip_stream env (chat_calls w) gq previous); [|done].
  by rewrite tip_drain_chat_calls.
Qed.

Lemma tip_stream_attempt_chat_calls gq request previous stored w :
  chat_calls (TipService.stream_attempt env gq request previous stored w).2
  = S (chat_calls w).
Proof.
  unfold TipService.stream_attempt.
  pose proof (generate_tip_content_stream_chat_calls gq previous w) as Hw.
  destruct (generate_tip_content_stream env gq previous w)
    as [[fragments [e|]] w1]; simpl in *; [done|].
  unfold bind, get_complete_tip.
  destruct (_current_tip w1) as [current|]; [|done].
  destruct stored as [|s stored].
  - simpl.
    pose proof (add_tip_chat_calls request (Some {| tip := current |}) w1)
      as Ha.
    destruct (add_tip env request _ w1) as [r w2]. simpl in *. congruence.
  - destruct (py_all _ (s :: stored)) as [[]|]; simpl; try done.
    pose proof (add_tip_chat_calls request (Some {| tip := current |}) w1)
      as Ha.
    destruct (add_tip env request _ w1) as [r w2]. simpl in *. congruence.
Qed.

Variable _parse_response : string -> QuestionContent.

Lemma question_drain_chat_calls rest ending text w :
  chat_calls (question_drain _parse_response rest ending text w).2
  = chat_calls w.
Proof.
  revert text w.
  induction rest as [|delta rest IH]; intros text w; simpl;
    [by destruct ending|].
  destruct (truthy delta); [|apply IH].
  specialize (IH (text +:+ default "" delta) w).
  by destruct (question_drain _ rest ending _ _) as [[fragments e] w'].
Qed.

Lemma generate_question_content_stream_chat_calls request previous w :
  chat_calls
    (generate_question_content_stream env _parse_response request
       previous w).2
  = S (chat_calls w).
Proof.
  unfold generate_question_content_stream. simpl.
  destruct (question_stream env (chat_calls w) request previous); [|done].
  by rewrite question_drain_chat_calls.
Qed.

Lemma question_stream_attempt_chat_calls request previous stored w :
  chat_calls
    (AsyncQuestionService.stream_attempt env _parse_response request
       previous stored w).2
  = S (chat_calls w).
Proof.
  unfold AsyncQuestionService.stream_attempt.
  pose proof (generate_question_content_stream_chat_calls request
                previous w) as Hw.
  destruct (generate_question_content_stream env _ request previous w)
    as [[fragments [e|]] w1]; simpl in *; [done|].
  unfold bind, get_complete_question.
  destruct (_current_question w1) as [current|]; [|done].
  destruct stored as [|s stored].
  - simpl.
    pose proof (add_question_chat_calls request (Some current) w1) as Ha.
    destruct (add_question env request _ w1) as [r w2]. simpl in *.
    congruence.
  - destruct (is_embedding_different_from_list _ (s :: stored)) as [[]|];
      simpl; try done.
    pose proof (add_question_chat_calls request (Some current) w1) as Ha.
    destruct (add_question env request _ w1) as [r w2]. simpl in *.
    congruence.
Qed.

End ProviderCalls.

(** ** C1: the retry budget runs out *)

(** C1 as stated fails on the streaming methods: with two attempts that
    both fail, the synchronous tip generation raises the [ValueError] that
    names the function, the label and the number of attempts, while the
    streaming tip generation re-raises the provider's own error, which
    carries none of them. *)
Lemma C1_counterexample :
  (TipService.generate_tip failing_provider (embedder := all_similar)
     two_attempts 1%N world_with_tip).1
  = Raise (ValueError
      "Function 'generate_and_validate' operation failed after 2 attempts. Last error: connection lost")
  /\
  (TipService.generate_tip_stream failing_provider (embedder := all_similar)
     two_attempts 1%N world_with_tip).1.2
  = Raise (ProviderError "connection lost")
  /\
  raised (TipService.generate_tip_stream failing_provider
            (embedder := all_similar) two_attempts 1%N world_with_tip).1.2
  <> raised (TipService.generate_tip failing_provider
               (embedder := all_similar) two_attempts 1%N world_with_tip).1.
Proof. vm_compute. repeat split. discriminate. Qed.

(** C1, amended -- when every one of the [max_attempts] attempts raises an
    exception that the retry predicate accepts, the content generator is
    called exactly [max_attempts] times, in the retried synchronous methods
    ([_generate_unique_question], [generate_tip_wrapper]) and in the
    streaming methods alike; the synchronous methods then raise a
    [ValueError] whose message holds the function name, the lower-cased
    label, [max_attempts] and the message of the last error, and the
    streaming methods re-raise the last error itself. *)
Theorem C1_exhaustion (env : environment) (embedder : Embedder)
    (rs : RetryStrategy) (_parse_response : string -> QuestionContent) :
  (forall request previous stored w w' e,
     attempts_fail rs
       (QuestionService.generate_and_validate env request previous stored)
       (max_attempts rs) w w' (Some e) ->
     QuestionService._generate_unique_question env rs request previous
       stored w
     = (Raise (ValueError
          ("Function 'generate_and_validate' " +:+ lower (error_message rs)
           +:+ " after " +:+ pretty (max_attempts rs)
           +:+ " attempts. Last error: " +:+ str e)), w') /\
     chat_calls w' = chat_calls w + max_attempts rs) /\
  (forall generated_question tip_request previous stored w w' e,
     attempts_fail rs
       (TipService.generate_and_validate env generated_question tip_request
          previous stored)
       (max_attempts rs) w w' (Some e) ->
     TipService.generate_tip_wrapper env rs generated_question tip_request
       previous stored w
     = (Raise (ValueError
          ("Function 'generate_and_validate' " +:+ lower (error_message rs)
           +:+ " after " +:+ pretty (max_attempts rs)
           +:+ " attempts. Last error: " +:+ str e)), w') /\
     chat_calls w' = chat_calls w + max_attempts rs) /\
  (forall question_id generated_question w outs w' e,
     get_question question_id w = Some generated_question ->
     stream_attempts_fail rs
       (TipService.stream_attempt env generated_question
          (Build_TipGenerationRequest question_id)
          (map tip_text (list_tips_for_question question_id w))
          (map (fun t => get_embedding (tip_text t))
             (list_tips_for_question question_id w)))
       (max_attempts rs) w outs w' (Some e) ->
     TipService.generate_tip_stream env rs question_id w
     = (outs, Raise e, w') /\
     chat_calls w' = chat_calls w + max_attempts rs) /\
  (forall request w outs w' e,
     stream_attempts_fail rs
       (AsyncQuestionService.stream_attempt env _parse_response request
          (map question_text (list_questions_by_user (user_id request) w))
          (map (fun q => get_embedding (question_text q))
             (list_questions_by_user (user_id request) w)))
       (max_attempts rs) w outs w' (Some e) ->
     AsyncQuestionService.generate_question_stream env _parse_response rs
       request w
     = (outs, Raise e, w') /\
     chat_calls w' = chat_calls w + max_attempts rs).
Proof.
  repeat apply conj.
  - intros request previous stored w w' e H. split.
    + unfold QuestionService._generate_unique_question, retry.
      apply (execute_exhausted _ "generate_and_validate") in H.
      exact H.
    + eapply attempts_fail_chat_calls; [|exact H].
      intros w0. by rewrite question_generate_and_validate_world.
  - intros gq tip_request previous stored w w' e H. split.
    + unfold TipService.generate_tip_wrapper, retry.
      apply (execute_exhausted _ "generate_and_validate") in H.
      exact H.
    + eapply attempts_fail_chat_calls; [|exact H].
      intros w0. apply tip_generate_and_validate_chat_calls.
  - intros question_id gq w outs w' e Hq H. split.
    + unfold TipService.generate_tip_stream. rewrite Hq.
      by apply (stream_retry_loop_exhausted _ _ _ _ _ _ _ H).
    + eapply stream_attempts_fail_chat_calls; [|exact H].
      intros w0. apply tip_stream_attempt_chat_calls.
  - intros request w outs w' e H. split.
    + unfold AsyncQuestionService.generate_question_stream.
      by apply (stream_retry_loop_exhausted _ _ _ _ _ _ _ H).
    + eapply stream_attempts_fail_chat_calls; [|exact H].
      intros w0. apply question_stream_attempt_chat_calls.
Qed.

(** Two failing attempts on the stored tip of [world_with_tip]: the
    synchronous wrapper and the streaming method, each after two provider
    calls. *)
Lemma C1_witness :
  (exists w',
     TipService.generate_tip_wrapper failing_provider
       (embedder := all_similar) two_attempts sample_question
       (Build_TipGenerationRequest 1%N) ["Think of keys."] [[]]
       world_with_tip
     = (Raise (ValueError
          "Function 'generate_and_validate' operation failed after 2 attempts. Last error: connection lost"),
        w') /\
     chat_calls w' = 2) /\
  (exists w',
     TipService.generate_tip_stream failing_provider
       (embedder := all_similar) two_attempts 1%N world_with_tip
     = ([], Raise (ProviderError "connection lost"), w') /\
     chat_calls w' = 2).
Proof.
  pose proof (C1_exhaustion failing_provider all_similar two_attempts
                sample_content) as (_ & Hsync & Hstream & _).
  split.
  - eexists.
    apply (Hsync sample_question (Build_TipGenerationRequest 1%N)
             ["Think of keys."] [[]] world_with_tip _
             (ProviderError "connection lost")).
    apply (attempts_fail_S _ _ 1 _ (ProviderError "connection lost")
             (bump_chat world_with_tip) _
             (Some (ProviderError "connection lost")));
      [reflexivity..|].
    apply (attempts_fail_S _ _ 0 _ (ProviderError "connection lost")
             (bump_chat (bump_chat world_with_tip)) _ None);
      [reflexivity..|].
    apply attempts_fail_O.
  - eexists.
    apply (Hstream 1%N sample_question world_with_tip []
             _ (ProviderError "connection lost")); [reflexivity|].
    apply (stream_attempts_fail_S _ _ 1 _ [] (ProviderError "connection lost")
             (bump_chat (set_current_tip (Some "") world_with_tip)) [] _
             (Some (ProviderError "connection lost")));
      [reflexivity..|].
    apply (stream_attempts_fail_S _ _ 0 _ [] (ProviderError "connection lost")
             (bump_chat (set_current_tip (Some "")
                (bump_chat (set_current_tip (Some "") world_with_tip))))
             [] _ None);
      [reflexivity..|].
    apply stream_attempts_fail_O.
Defined.

(** ** The storage classes *)

Section RedisFacts.

Lemma exists_true {V} key (m : gmap N (entry V)) :
  Redis.exists_ key m = true <-> is_Some (m !! key).
Proof. unfold Redis.exists_. apply bool_decide_eq_true. Qed.

Lemma exists_false {V} key (m : gmap N (entry V)) :
  Redis.exists_ key m = false <-> m !! key = None.
Proof.
  unfold Redis.exists_. rewrite bool_decide_eq_false.
  by rewrite eq_None_not_Some.
Qed.

Lemma hgetall_expire {V} key key' seconds (m : gmap N (entry V)) :
  Redis.hgetall key (Redis.expire key' seconds m) = Redis.hgetall key m.
Proof.
  unfold Redis.hgetall, Redis.expire. rewrite lookup_alter.
  case_decide as Hk; [subst|done]. by destruct (m !! key).
Qed.

Lemma hgetall_hset {V} key key' (mapping : V) (m : gmap N (entry V)) :
  Redis.hgetall key (Redis.hset key' mapping m)
  = if decide (key' = key) then Some mapping else Redis.hgetall key m.
Proof.
  unfold Redis.hgetall, Redis.hset. rewrite lookup_insert.
  by case_decide.
Qed.

Lemma smembers_expire key key' seconds (m : gmap N (entry (gset N))) :
  Redis.smembers key (Redis.expire key' seconds m) = Redis.smembers key m.
Proof.
  unfold Redis.smembers, Redis.expire. rewrite lookup_alter.
  case_decide as Hk; [subst|done]. by destruct (m !! key).
Qed.

Lemma smembers_sadd key key' member (m : gmap N (entry (gset N))) :
  Redis.smembers key (Redis.sadd key' member m)
  = if decide (key' = key) then {[member]} ∪ Redis.smembers key m
    else Redis.smembers key m.
Proof.
  unfold Redis.smembers, Redis.sadd. rewrite lookup_insert.
  case_decide; by subst.
Qed.

End RedisFacts.

Section StorageFacts.

Variable env : environment.

Lemma add_question_collision request content w :
  Redis.exists_ (uuid1 env (uuid_calls w)) (questions w) = true ->
  add_question env request content w
  = (Raise (ValueError ("Question with ID "
                        +:+ pretty (uuid1 env (uuid_calls w))
                        +:+ " already exists.")), bump_uuid w).
Proof. intros H. unfold add_question. simpl. by rewrite H. Qed.

Lemma add_tip_collision request content w :
  Redis.exists_ (uuid1 env (uuid_calls w)) (tips w) = true ->
  add_tip env request content w
  = (Raise (ValueError ("Tip with ID "
                        +:+ pretty (uuid1 env (uuid_calls w))
                        +:+ " already exists.")), bump_uuid w).
Proof. intros H. unfold add_tip. simpl. by rewrite H. Qed.

(** What a successful [add_question] has done. *)
Lemma add_question_ok request candidate w q w' :
  add_question env request candidate w = (Ok q, w') ->
  candidate = Some (question_content q) /\
  question_request q = request /\
  questions w !! question_id_of q = None /\
  questions w'
  = Redis.expire (question_id_of q) (EXPIRATION_SECONDS env)
      (Redis.hset (question_id_of q) q (questions w)) /\
  user_questions w'
  = Redis.expire (user_id request) (EXPIRATION_SECONDS env)
      (Redis.sadd (user_id request) (question_id_of q)
         (user_questions w)).
Proof.
  unfold add_question. simpl.
  destruct (Redis.exists_ _ _) eqn:Hex; [done|].
  destruct candidate as [content|]; [|done].
  intros [= <- <-]. simpl. by apply exists_false in Hex.
Qed.

Lemma add_question_persisted request candidate w q w' :
  add_question env request candidate w = (Ok q, w') ->
  persisted (user_id request) q w' /\
  forall user q0, persisted user q0 w -> persisted user q0 w'.
Proof.
  intros (_ & _ & Hfresh & Hqs & Huqs)%add_question_ok.
  unfold persisted, get_question. rewrite Hqs, Huqs. split.
  - rewrite hgetall_expire, hgetall_hset, smembers_expire, smembers_sadd.
    rewrite !decide_True by done. split; [done|set_solver].
  - intros user q0 [Hget Hin]. split.
    + rewrite hgetall_expire, hgetall_hset. case_decide as Hid; [|done].
      unfold Redis.hgetall in Hget. rewrite <- Hid, Hfresh in Hget. done.
    + rewrite smembers_expire, smembers_sadd.
      case_decide; [subst; set_solver|done].
Qed.

End StorageFacts.

(** ** The loop of [generate_questions] *)

Section QuestionServiceFacts.

Variable env : environment.
Context {embedder : Embedder}.
Variable rs : RetryStrategy.
Variable request : QuestionGenerationRequest.

(** Generating a candidate leaves the question store as it was. *)
Lemma _generate_unique_question_store previous stored w :
  let w' := (QuestionService._generate_unique_question env rs request
               previous stored w).2 in
  questions w' = questions w /\ user_questions w' = user_questions w.
Proof.
  unfold QuestionService._generate_unique_question, retry.
  apply (execute_preserves _ "generate_and_validate" _
           (fun w w' => questions w' = questions w /\
                        user_questions w' = user_questions w)).
  - done.
  - intros w1 w2 w3 [? ?] [? ?]. split; congruence.
  - intros w0. by rewrite question_generate_and_validate_world.
Qed.

Lemma _generate_unique_question_persisted previous stored w r w' user q :
  QuestionService._generate_unique_question env rs request previous
    stored w = (r, w') ->
  persisted user q w -> persisted user q w'.
Proof.
  intros Hgen.
  pose proof (_generate_unique_question_store previous stored w) as H.
  rewrite Hgen in H. simpl in H. destruct H as [Hq Hu].
  unfold persisted, get_question. by rewrite Hq, Hu.
Qed.

(** An accepted run is a prefix of the loop. *)
Lemma accepted_run_loop k previous stored w items previous' stored' w' :
  accepted_run env rs request k previous stored w items previous'
    stored' w' ->
  forall m generated,
    QuestionService.generate_questions_loop env rs request (k + m)
      previous stored generated w
    = QuestionService.generate_questions_loop env rs request m
        previous' stored' (generated ++ items) w'.
Proof.
  induction 1 as [previous stored w
                 |k previous stored w candidate w1 q w2 items
                    previous' stored' w3 Hgen Hadd _ IH];
    intros m generated.
  - by rewrite app_nil_r.
  - cbn [Nat.add QuestionService.generate_questions_loop]. unfold bind.
    rewrite Hgen, Hadd. rewrite IH. by rewrite <- app_assoc.
Qed.

(** A loop that returns has made an accepted run. *)
Lemma loop_ok_accepted_run k previous stored generated w items w' :
  QuestionService.generate_questions_loop env rs request k previous
    stored generated w = (Ok items, w') ->
  exists new previous' stored',
    items = generated ++ new /\
    accepted_run env rs request k previous stored w new previous'
      stored' w'.
Proof.
  revert previous stored generated w.
  induction k as [|k IH]; intros previous stored generated w.
  - intros [= <- <-]. exists [], previous, stored.
    split; [by rewrite app_nil_r|constructor].
  - cbn [QuestionService.generate_questions_loop]. unfold bind.
    destruct (QuestionService._generate_unique_question env rs request
                previous stored w) as [[candidate|e] w1] eqn:Hgen; [|done].
    destruct (add_question env request candidate w1)
      as [[q|e] w2] eqn:Hadd; [|done].
    intros (new & previous' & stored' & -> & Hrun)%IH.
    exists (q :: new), previous', stored'.
    split; [by rewrite <- app_assoc|].
    by eapply accepted_run_S.
Qed.

Lemma accepted_run_length k previous stored w items previous' stored' w' :
  accepted_run env rs request k previous stored w items previous'
    stored' w' ->
  length items = k.
Proof. induction 1; simpl; congruence. Qed.

(** The questions of an accepted run are in the store, and so is what
    was there before. *)
Lemma accepted_run_persisted k previous stored w items previous' stored'
    w' :
  accepted_run env rs request k previous stored w items previous'
    stored' w' ->
  (forall user q0, persisted user q0 w -> persisted user q0 w') /\
  (forall q, q ∈ items -> persisted (user_id request) q w').
Proof.
  induction 1 as [previous stored w
                 |k previous stored w candidate w1 q w2 items
                    previous' stored' w3 Hgen Hadd _ [IHold IHnew]].
  - split; [done|]. by intros q ?%elem_of_nil.
  - destruct (add_question_persisted _ _ _ _ _ _ Hadd) as [Hq Hkeep].
    split.
    + intros user q0 H0. apply IHold, Hkeep.
      by eapply _generate_unique_question_persisted.
    + intros q' [->|Hin]%elem_of_cons; [by apply IHold|by apply IHnew].
Qed.

(** C9 -- when the first [k] questions of a request for more than [k]
    have been accepted and the generation of the next one exhausts its
    retries, the call fails with that error, and the [k] accepted
    questions are still in the store and in the user's index. *)
Theorem C9_accepted_items_remain (k : nat)
    (items : list GeneratedQuestion) (previous' : list string)
    (stored' : list (list R)) (w w1 w2 : world) (e : exn) :
  k < n request ->
  accepted_run env rs request k
    (map question_text (list_questions_by_user (user_id request) w))
    (map (fun q => get_embedding (question_text q))
       (list_questions_by_user (user_id request) w))
    w items previous' stored' w1 ->
  QuestionService._generate_unique_question env rs request previous'
    stored' w1 = (Raise e, w2) ->
  QuestionService.generate_questions env rs request w = (Raise e, w2) /\
  length items = k /\
  forall q, q ∈ items -> persisted (user_id request) q w2.
Proof.
  intros Hk Hrun Hfail. split; [|split].
  - unfold QuestionService.generate_questions.
    replace (n request) with (k + S (n request - S k)) by lia.
    rewrite (accepted_run_loop _ _ _ _ _ _ _ _ Hrun).
    cbn [QuestionService.generate_questions_loop]. unfold bind.
    by rewrite Hfail.
  - by eapply accepted_run_length.
  - intros q Hq. eapply _generate_unique_question_persisted; [done|].
    by apply (accepted_run_persisted _ _ _ _ _ _ _ _ Hrun).
Qed.

End QuestionServiceFacts.

(** ** No duplicates within a batch *)

Lemma py_all_true {A} (f : A -> result bool) (l : list A) :
  py_all f l = Ok true -> forall x, x ∈ l -> f x = Ok true.
Proof.
  induction l as [|y l IH]; simpl; [by intros _ x ?%elem_of_nil|].
  destruct (f y) as [[]|] eqn:Hy; try done.
  intros H x [->|Hin]%elem_of_cons; [done|by apply IH].
Qed.

Section BatchFacts.

Variable env : environment.
Context {embedder : Embedder}.
Variable rs : RetryStrategy.
Variable request : QuestionGenerationRequest.

(** With stored embeddings to compare with, an accepted candidate has
    passed the check against every one of them. *)
Lemma accepted_candidate_checked previous stored w candidate w1 :
  QuestionService._generate_unique_question env rs request previous
    stored w = (Ok candidate, w1) ->
  stored <> [] ->
  exists content,
    candidate = Some content /\
    forall x, x ∈ stored ->
      are_embeddings_different (get_embedding (question content)) x
      = Ok true.
Proof.
  unfold QuestionService._generate_unique_question, retry.
  intros (w0 & Hop)%execute_ok Hne.
  unfold QuestionService.generate_and_validate in Hop.
  destruct stored as [|s stored]; [done|]. unfold bind in Hop.
  destruct (generate_question_content env request previous w0)
    as [[[content|]|e] w'']; try done.
  unfold is_embedding_different_from_list in Hop.
  destruct (py_all _ (s :: stored)) as [[]|] eqn:Hall; try done.
  injection Hop as <- <-. exists content. split; [done|].
  by apply py_all_true.
Qed.

Lemma accepted_run_distinct k previous stored w items previous' stored'
    w' :
  accepted_run env rs request k previous stored w items previous'
    stored' w' ->
  (stored <> [] ->
   forall b x, b ∈ items -> x ∈ stored ->
     are_embeddings_different (get_embedding (question_text b)) x
     = Ok true) /\
  (forall i j a b, i < j -> items !! i = Some a -> items !! j = Some b ->
     are_embeddings_different (get_embedding (question_text b))
       (get_embedding (question_text a)) = Ok true).
Proof.
  induction 1 as [previous stored w
                 |k previous stored w candidate w1 q w2 items
                    previous' stored' w3 Hgen Hadd _ [IHold IHnew]].
  - split; [by intros _ b x ?%elem_of_nil|].
    intros i j a b _ Ha. by rewrite lookup_nil in Ha.
  - assert (stored ++ [get_embedding (question_text q)] <> []) as Hne
      by (by destruct stored).
    specialize (IHold Hne). split.
    + intros Hstored b x [->|Hb]%elem_of_cons Hx.
      * destruct (accepted_candidate_checked _ _ _ _ _ Hgen Hstored)
          as (content & -> & Hall).
        apply add_question_ok in Hadd as ([= ->] & _).
        by apply Hall.
      * apply IHold; [done|]. apply elem_of_app. by left.
    + intros [|i] [|j] a b Hij Ha Hb; simpl in *; try lia.
      * injection Ha as <-. apply IHold.
        -- by eapply list_elem_of_lookup_2.
        -- apply elem_of_app. right. by apply list_elem_of_singleton.
      * apply (IHnew i j); [lia|done..].
Qed.

End BatchFacts.


(** ** Concrete runs *)

(** A first attempt that passes is the result of the retried call. *)
Lemma _generate_unique_question_first_try env {embedder : Embedder} rs
    request previous stored w content w1 :
  0 < max_attempts rs ->
  stored <> [] ->
  generate_question_content env request previous w
  = (Ok (Some content), w1) ->
  is_embedding_different_from_list (get_embedding (question content)) stored
  = Ok true ->
  QuestionService._generate_unique_question env rs request previous stored w
  = (Ok (Some content), w1).
Proof.
  intros Hmax Hne Hgen Hall.
  unfold QuestionService._generate_unique_question, retry, Retry.execute.
  simpl. destruct (max_attempts rs) as [|k]; [lia|]. simpl.
  unfold QuestionService.generate_and_validate.
  destruct stored as [|s stored]; [done|].
  unfold bind. rewrite Hgen, Hall. done.
Qed.

Lemma axis_embeddings_different :
  Embeddings.are_embeddings_different (8 / 10) [0; 1]%R [1; 0]%R = Ok true.
Proof.
  apply are_embeddings_different_true. exists 0%R. split; [|lra].
  unfold Embeddings._cosine_similarity, Embeddings.norm. simpl.
  replace (0 * 0 + (1 * 1 + 0))%R with 1%R by lra.
  replace (1 * 1 + (0 * 0 + 0))%R with 1%R by lra.
  rewrite sqrt_1.
  assert (Embeddings.Reqb 1 0 = false) as -> by (apply Reqb_false; lra).
  simpl. f_equal. lra.
Qed.


(** Two questions requested, the provider failing after the first: the
    call fails and the first question stays stored. *)
Lemma C9_witness :
  QuestionService.generate_questions flaky_provider
    (embedder := all_different) two_attempts sample_request empty_world
  = (Raise (ValueError
       "Function 'generate_and_validate' operation failed after 2 attempts. Last error: Failed to generate question content: connection lost"),
     bump_chat (bump_chat (world_A flaky_provider))) /\
  persisted 7%N question_A (bump_chat (bump_chat (world_A flaky_provider))).
Proof.
  destruct (C9_accepted_items_remain flaky_provider (embedder := all_different)
              two_attempts sample_request 1 [question_A] ["A"] [[]]
              empty_world (world_A flaky_provider)
              (bump_chat (bump_chat (world_A flaky_provider)))
              (ValueError
                 "Function 'generate_and_validate' operation failed after 2 attempts. Last error: Failed to generate question content: connection lost"))
    as (Hcall & _ & Hkept).
  - simpl. lia.
  - apply (accepted_run_S _ _ _ 0 _ _ _ (Some (sample_content "A"))
             (bump_chat empty_world) question_A (world_A flaky_provider));
      [reflexivity..|apply accepted_run_O].
  - reflexivity.
  - split; [exact Hcall|]. apply Hkept. apply list_elem_of_singleton.
    reflexivity.
Defined.

(** ** C4: identifier collisions *)




(** ** C5: a generation failure on the path without stored tips *)

(** C5 -- evaluated where the code departs from it: for a stored question
    without tips, [generate_tip] calls the generator outside the retry
    loop; with five attempts configured, a single refusal of the provider
    ends the call after one provider call, the refusal reaching the caller
    as it is.  The two neighbouring paths do retry: question generation
    with nothing stored, and the streaming tip generation for the same
    question, each make five provider calls before they fail. *)
Theorem C5_tip_without_history_not_retried :
  list_tips_for_question 1%N world_with_question = [] /\
  TipService.generate_tip refusing_provider (embedder := all_different)
    five_attempts 1%N world_with_question
  = (Raise (ValueError "I cannot help with that."),
     bump_chat world_with_question) /\
  chat_calls (bump_chat world_with_question) = 1 /\
  (let '(r, w') :=
     QuestionService._generate_unique_question failing_provider
       (embedder := all_different) five_attempts sample_request [] []
       empty_world in
   r = Raise (ValueError
         "Function 'generate_and_validate' operation failed after 5 attempts. Last error: Failed to generate question content: connection lost")
   /\ chat_calls w' = 5) /\
  (let '(out, r, w') :=
     TipService.generate_tip_stream failing_provider
       (embedder := all_different) five_attempts 1%N world_with_question in
   r = Raise (ProviderError "connection lost") /\ chat_calls w' = 5).
Proof. vm_compute. done. Qed.

(** ** The streaming generators *)

Lemma append_assoc (s1 s2 s3 : string) :
  (s1 +:+ s2) +:+ s3 = s1 +:+ (s2 +:+ s3).
Proof.
  induction s1 as [|c s1 IH]; [done|].
  change (String c ((s1 +:+ s2) +:+ s3) = String c (s1 +:+ (s2 +:+ s3))).
  by f_equal.
Qed.

Lemma append_empty_r (s : string) : s +:+ "" = s.
Proof.
  induction s as [|c s IH]; [done|].
  change (String c (s +:+ "") = String c s). by f_equal.
Qed.

Section TipStreamFacts.

Variable env : environment.

(** One step of the generator appends what it yields to the buffer. *)
Lemma tip_resume_buffer rest ending w current r g w' :
  _current_tip w = Some current ->
  tip_resume rest ending w = (r, g, w') ->
  _current_tip w'
  = Some (current +:+ match r with Yielded content => content | _ => "" end).
Proof.
  intros Hcur. revert r g w'.
  induction rest as [|delta rest IH]; intros r g w'; simpl.
  - destruct ending; intros [= <- <- <-]; by rewrite append_empty_r.
  - destruct (truthy delta); [|apply IH].
    rewrite Hcur. by intros [= <- <- <-].
Qed.

Lemma tip_take_suspended_buffer k rest ending w current fragments last g
    w' :
  _current_tip w = Some current ->
  tip_take env k (TipSuspended rest ending) w = (fragments, last, g, w') ->
  _current_tip w' = Some (current +:+ concat_fragments fragments).
Proof.
  revert rest ending w current fragments last g w'.
  induction k as [|k IH]; intros rest ending w current fragments last g w'
    Hcur; simpl.
  - intros [= <- <- <- <-]. simpl. by rewrite append_empty_r.
  - destruct (tip_resume rest ending w) as [[r g1] w1] eqn:Hstep.
    pose proof (tip_resume_buffer _ _ _ _ _ _ _ Hcur Hstep) as Hbuf.
    destruct r as [content| |e].
    + assert (exists rest', g1 = TipSuspended rest' ending) as [rest' ->].
      { clear -Hstep. revert Hstep.
        induction rest as [|delta rest IHr]; simpl.
        - by destruct ending.
        - destruct (truthy delta); [|done].
          destruct (_current_tip w); intros [= <- <- <-]; eauto. }
      destruct (tip_take env k (TipSuspended rest' ending) w1)
        as [[[fragments' last'] g''] w''] eqn:Htake.
      intros [= <- <- <- <-].
      rewrite (IH _ _ _ _ _ _ _ _ Hbuf Htake). simpl.
      by rewrite append_assoc.
    + intros [= <- <- <- <-]. by rewrite Hbuf.
    + intros [= <- <- <- <-]. by rewrite Hbuf.
Qed.

(** However many fragments the consumer has taken, the buffer holds
    exactly those, whatever it held before the generator started. *)
Lemma tip_take_buffer k generated_question previous w fragments last g w' :
  0 < k ->
  tip_take env k (TipCreated generated_question previous) w
  = (fragments, last, g, w') ->
  _current_tip w' = Some (concat_fragments fragments).
Proof.
  destruct k as [|k]; [lia|]. intros _ Htake.
  cbn [tip_take tip_anext] in Htake.
  change (chat_calls (set_current_tip (Some "") w)) with (chat_calls w)
    in Htake.
  destruct (tip_stream env (chat_calls w) generated_question previous)
    as [stream|e].
  - exact (tip_take_suspended_buffer (S k) (deltas stream) (ending stream)
             (bump_chat (set_current_tip (Some "") w)) ""
             fragments last g w' eq_refl Htake).
  - by injection Htake as <- <- <- <-.
Qed.

Lemma tip_drain_buffer rest ending w current :
  _current_tip w = Some current ->
  let '(fragments, e, w') := tip_drain rest ending w in
  _current_tip w' = Some (current +:+ concat_fragments fragments).
Proof.
  revert w current. induction rest as [|delta rest IH]; intros w current
    Hcur; simpl.
  - by rewrite append_empty_r.
  - destruct (truthy delta); [|by apply IH].
    rewrite Hcur.
    specialize (IH (set_current_tip
                      (Some (current +:+ default "" delta)) w)
                  (current +:+ default "" delta) eq_refl).
    destruct (tip_drain rest ending _) as [[fragments e] w'].
    simpl. by rewrite <- append_assoc.
Qed.

Lemma generate_tip_content_stream_buffer generated_question previous w :
  let '(fragments, e, w') :=
    generate_tip_content_stream env generated_question previous w in
  _current_tip w' = Some (concat_fragments fragments).
Proof.
  unfold generate_tip_content_stream.
  destruct (tip_stream env _ generated_question previous) as [stream|e];
    [|done].
  apply (tip_drain_buffer (deltas stream) (ending stream) _ "").
  done.
Qed.

(** A consumer that never breaks sees what a consumer that keeps asking
    sees. *)
Lemma tip_take_drain rest ending w k :
  length rest < k ->
  tip_take env k (TipSuspended rest ending) w
  = (let '(fragments, e, w') := tip_drain rest ending w in
     (fragments, Some (anext_of_ending e), TipClosed, w')).
Proof.
  revert w k. induction rest as [|delta rest IH]; intros w k Hk.
  - destruct k as [|k]; [simpl in Hk; lia|]. simpl. by destruct ending.
  - destruct k as [|k]; [simpl in Hk; lia|]. simpl in Hk.
    specialize (IH w (S k) ltac:(lia)) as IHskip.
    cbn [tip_take tip_anext tip_resume tip_drain] in *.
    destruct (truthy delta); [|exact IHskip].
    destruct (_current_tip w) as [current|]; [|done].
    rewrite (IH _ k ltac:(lia)). clear IHskip.
    by destruct (tip_drain rest ending
                   (set_current_tip (Some (current +:+ default "" delta))
                      w)) as [[fragments e] w'].
Qed.

End TipStreamFacts.

Section QuestionStreamFacts.

Variable env : environment.
Variable _parse_response : string -> QuestionContent.

(** Until the provider signals completion, the generator leaves
    [_current_question] unset. *)
Lemma question_resume_pending rest ending text w r g w' :
  _current_question w = None ->
  question_resume _parse_response rest ending text w = (r, g, w') ->
  r <> StopAsyncIteration ->
  _current_question w' = None /\
  (forall content, r = Yielded content ->
     exists rest' text', g = QuestionSuspended rest' ending text').
Proof.
  intros Hcur. revert text r g w'.
  induction rest as [|delta rest IH]; intros text r g w'; simpl.
  - destruct ending; intros [= <- <- <-] Hr; done.
  - destruct (truthy delta); [|apply IH].
    intros [= <- <- <-] _. split; [done|]. eauto.
Qed.

Lemma question_take_suspended_pending k rest ending text w fragments last
    g w' :
  _current_question w = None ->
  question_take env _parse_response k (QuestionSuspended rest ending text)
    w = (fragments, last, g, w') ->
  last <> Some StopAsyncIteration ->
  _current_question w' = None.
Proof.
  revert rest text w fragments last g w'.
  induction k as [|k IH]; intros rest text w fragments last g w' Hcur;
    simpl.
  - by intros [= <- <- <- <-].
  - destruct (question_resume _parse_response rest ending text w)
      as [[r g1] w1] eqn:Hstep.
    pose proof (question_resume_pending _ _ _ _ _ _ _ Hcur Hstep) as Hpend.
    destruct r as [content| |e].
    + destruct Hpend as [Hcur1 Hg]; [done|].
      destruct (Hg content eq_refl) as (rest' & text' & ->).
      destruct (question_take env _parse_response k
                  (QuestionSuspended rest' ending text') w1)
        as [[[fragments' last'] g''] w''] eqn:Htake.
      intros [= <- <- <- <-] Hlast.
      by apply (IH _ _ _ _ _ _ _ Hcur1 Htake).
    + by intros [= <- <- <- <-] Hlast.
    + intros [= <- <- <- <-] _. by apply Hpend.
Qed.

Lemma question_take_pending k request previous w fragments last g w' :
  0 < k ->
  question_take env _parse_response k (QuestionCreated request previous) w
  = (fragments, last, g, w') ->
  last <> Some StopAsyncIteration ->
  _current_question w' = None.
Proof.
  destruct k as [|k]; [lia|]. intros _ Htake.
  cbn [question_take question_anext] in Htake.
  change (chat_calls (set_current_question None w)) with (chat_calls w)
    in Htake.
  destruct (question_stream env (chat_calls w) request previous)
    as [stream|e].
  - exact (question_take_suspended_pending (S k) (deltas stream)
             (ending stream) "" (bump_chat (set_current_question None w))
             fragments last g w' eq_refl Htake).
  - by injection Htake as <- <- <- <-.
Qed.

(** A stream consumed to its end leaves the parsed text of its fragments. *)
Lemma question_drain_complete rest text w fragments w' :
  question_drain _parse_response rest None text w = (fragments, None, w') ->
  _current_question w'
  = Some (_parse_response (text +:+ concat_fragments fragments)).
Proof.
  revert text fragments w'.
  induction rest as [|delta rest IH]; intros text fragments w'; simpl.
  - intros [= <- <-]. simpl. by rewrite append_empty_r.
  - destruct (truthy delta); [|apply IH].
    destruct (question_drain _ rest None _ w) as [[fragments' e] w'']
      eqn:Hdrain.
    intros [= <- -> <-]. rewrite (IH _ _ _ Hdrain). simpl.
    by rewrite append_assoc.
Qed.

End QuestionStreamFacts.

(** ** C6: the terminal accessors on an abandoned stream *)

(** C6 as stated fails on the tip stream: the consumer takes one fragment
    of two and walks away from the suspended generator; [get_complete_tip]
    returns a tip made of that one fragment. *)
Lemma C6_counterexample :
  let '(fragments, last, g, w') :=
    tip_take repeating_provider 1 (TipCreated sample_question [])
      empty_world in
  fragments = ["Think "] /\ last = None /\
  g = TipSuspended [Some "of keys."] None /\
  get_complete_tip w' = (Ok {| tip := "Think " |}, w').
Proof. vm_compute. done. Qed.

(** C6, amended -- once a consumer has started the question stream and
    leaves it before the provider has signalled completion (the generator
    is suspended, or the provider has failed), [get_complete_question]
    raises "No question has been generated yet", whatever an earlier
    stream had left; [get_complete_tip] has no such state: on a tip stream
    that was started it returns the fragments received so far, put end to
    end. *)
Theorem C6_abandoned_stream (env : environment)
    (_parse_response : string -> QuestionContent) :
  (forall request previous w k fragments last g w',
     0 < k ->
     question_take env _parse_response k
       (QuestionCreated request previous) w = (fragments, last, g, w') ->
     last <> Some StopAsyncIteration ->
     get_complete_question w'
     = (Raise (ValueError "No question has been generated yet"), w')) /\
  (forall generated_question previous w k fragments last g w',
     0 < k ->
     tip_take env k (TipCreated generated_question previous) w
     = (fragments, last, g, w') ->
     get_complete_tip w'
     = (Ok {| tip := concat_fragments fragments |}, w')).
Proof.
  split.
  - intros request previous w k fragments last g w' Hk Htake Hlast.
    unfold get_complete_question.
    by rewrite (question_take_pending _ _ _ _ _ _ _ _ _ _ Hk Htake Hlast).
  - intros gq previous w k fragments last g w' Hk Htake.
    unfold get_complete_tip.
    by rewrite (tip_take_buffer _ _ _ _ _ _ _ _ _ Hk Htake).
Qed.

(** One fragment taken of a question stream, in a world where an earlier
    stream had left its question; one fragment taken of a tip stream. *)
Lemma C6_witness :
  (let w' :=
     (question_take repeating_provider sample_content 1
        (QuestionCreated sample_request [])
        (set_current_question (Some (sample_content "old")) empty_world)).2
   in
   get_complete_question w'
   = (Raise (ValueError "No question has been generated yet"), w')) /\
  (let w' :=
     (tip_take repeating_provider 1 (TipCreated sample_question [])
        empty_world).2 in
   get_complete_tip w' = (Ok {| tip := "Think " |}, w')).
Proof.
  destruct (C6_abandoned_stream repeating_provider sample_content)
    as [Hquestion Htip].
  split.
  - apply (Hquestion sample_request []
             (set_current_question (Some (sample_content "old")) empty_world)
             1 ["Qu"] None
             (QuestionSuspended [Some ""; Some "estion: B"] None "Qu")).
    + lia.
    + reflexivity.
    + discriminate.
  - apply (Htip sample_question [] empty_world 1 ["Think "] None
             (TipSuspended [Some "of keys."] None)).
    + lia.
    + reflexivity.
Defined.

(** ** C10: the buffer of the streaming tip generator *)

Lemma add_tip_ok env request candidate w t w' :
  add_tip env request candidate w = (Ok t, w') ->
  candidate = Some (tip_content t).
Proof.
  unfold add_tip. simpl. destruct (Redis.exists_ _ _); [done|].
  destruct candidate as [content|]; [|done]. by intros [= <- <-].
Qed.

(** The tip an attempt stores is made of the fragments of that attempt. *)
Lemma tip_stream_attempt_ok env {embedder : Embedder} generated_question
    tip_request previous stored w out t w' :
  TipService.stream_attempt env generated_question tip_request previous
    stored w = (out, Ok t, w') ->
  exists fragments,
    out = map Fragment fragments /\
    tip_text t = concat_fragments fragments.
Proof.
  unfold TipService.stream_attempt.
  pose proof (generate_tip_content_stream_buffer env generated_question
                previous w) as Hbuf.
  destruct (generate_tip_content_stream env generated_question previous w)
    as [[fragments [e|]] w1]; [done|].
  unfold bind, get_complete_tip. rewrite Hbuf.
  destruct stored as [|s stored].
  - simpl.
    destruct (add_tip env tip_request _ w1) as [[t'|e] w2] eqn:Hadd; [|done].
    intros [= <- <- <-]. exists fragments. split; [done|].
    apply add_tip_ok in Hadd. unfold tip_text. by injection Hadd as <-.
  - destruct (py_all _ (s :: stored)) as [[]|]; simpl; try done.
    destruct (add_tip env tip_request _ w1) as [[t'|e] w2] eqn:Hadd; [|done].
    intros [= <- <- <-]. exists fragments. split; [done|].
    apply add_tip_ok in Hadd. unfold tip_text. by injection Hadd as <-.
Qed.

(** C10 -- every run of the streaming tip generator starts from an empty
    buffer: whatever the buffer held, after the run [get_complete_tip]
    gives the fragments of this run put end to end; and the tip that
    [generate_tip_stream] stores and yields last is made of the fragments
    of its last attempt alone, those of rejected attempts coming before
    them in the output. *)
Theorem C10_buffer_reset (env : environment) :
  (forall generated_question previous w,
     let '(fragments, e, w') :=
       generate_tip_content_stream env generated_question previous w in
     get_complete_tip w'
     = (Ok {| tip := concat_fragments fragments |}, w')) /\
  (forall (embedder : Embedder) rs question_id w out w',
     0 < max_attempts rs ->
     TipService.generate_tip_stream env rs question_id w
     = (out, Ok tt, w') ->
     exists earlier fragments stored,
       out = earlier ++ map Fragment fragments ++ [Final stored] /\
       tip_text stored = concat_fragments fragments).
Proof.
  split.
  - intros gq previous w.
    pose proof (generate_tip_content_stream_buffer env gq previous w) as H.
    destruct (generate_tip_content_stream env gq previous w)
      as [[fragments e] w'].
    unfold get_complete_tip. by rewrite H.
  - intros embedder rs question_id w out w' Hmax.
    unfold TipService.generate_tip_stream.
    destruct (get_question question_id w) as [gq|]; [|done].
    intros (earlier & w0 & last_out & stored & Hbody & ->)
      %stream_retry_loop_ok; [|done].
    apply tip_stream_attempt_ok in Hbody as (fragments & -> & Htext).
    by exists earlier, fragments, stored.
Qed.

(** A first attempt that repeats the stored tip and is rejected, a second
    that is accepted: the tip stored is "Draw it.", the text of the second
    attempt alone. *)
Lemma C10_witness :
  (TipService.generate_tip_stream repeating_provider (embedder := by_length)
     two_attempts 1%N world_with_tip).1
  = ([Fragment "Think "; Fragment "of keys."; Fragment "Draw ";
      Fragment "it."; Final tip_draw_it], Ok tt) /\
  exists earlier fragments stored,
    [Fragment "Think "; Fragment "of keys."; Fragment "Draw ";
     Fragment "it."; Final tip_draw_it]
    = earlier ++ map Fragment fragments ++ [Final stored] /\
    tip_text stored = concat_fragments fragments.
Proof.
  split; [reflexivity|].
  destruct (C10_buffer_reset repeating_provider) as [_ Hcall].
  apply (Hcall by_length two_attempts 1%N world_with_tip _
           (TipService.generate_tip_stream repeating_provider
              (embedder := by_length) two_attempts 1%N world_with_tip).2).
  - simpl. lia.
  - reflexivity.
Defined.

(** * Further properties *)

(** ** Embeddings *)

Section MoreEmbeddingFacts.

Import Embeddings.
Open Scope R_scope.

Lemma dot_None_iff v1 v2 : dot v1 v2 = None <-> length v1 <> length v2.
Proof.
  revert v2. induction v1 as [|x v1 IH]; intros [|y v2]; simpl;
    try (split; [done|lia]); try (split; [lia|done]).
  specialize (IH v2). destruct (dot v1 v2); split.
  - done.
  - intros Hne. assert (length v1 <> length v2) as H%IH by lia. done.
  - intros _. assert (length v1 <> length v2) by (by apply IH). lia.
  - done.
Qed.

(** X1 -- the difference check does not depend on the order of the two
    embeddings: whenever it answers, it gives the same answer both ways,
    and it raises one way exactly when it raises the other way. *)
Theorem X1_difference_check_symmetric (t : R) (v1 v2 : list R) :
  (forall b, are_embeddings_different t v1 v2 = Ok b <->
             are_embeddings_different t v2 v1 = Ok b) /\
  (raised (are_embeddings_different t v1 v2) = None <->
   raised (are_embeddings_different t v2 v1) = None).
Proof.
  assert (forall b, are_embeddings_different t v1 v2 = Ok b <->
                    are_embeddings_different t v2 v1 = Ok b) as Hsym.
  { intros b. split; apply are_embeddings_different_sym. }
  split; [exact Hsym|]. clear Hsym. split.
  - destruct (are_embeddings_different t v1 v2) as [b|e] eqn:H12; [|done].
    intros _. by rewrite (are_embeddings_different_sym _ _ _ _ H12).
  - destruct (are_embeddings_different t v2 v1) as [b|e] eqn:H21; [|done].
    intros _. by rewrite (are_embeddings_different_sym _ _ _ _ H21).
Qed.

(** X2 -- the similarity is defined exactly on vectors of the same
    length; on two vectors of different lengths both the similarity and
    the difference check raise the shape error of [np.dot]. *)
Theorem X2_shape_mismatch_raises (t : R) (v1 v2 : list R) :
  ((exists s, _cosine_similarity v1 v2 = Ok s) <->
   length v1 = length v2) /\
  (length v1 <> length v2 ->
   _cosine_similarity v1 v2 = Raise (shapes_not_aligned v1 v2) /\
   are_embeddings_different t v1 v2 = Raise (shapes_not_aligned v1 v2)).
Proof.
  split.
  - unfold _cosine_similarity. split.
    + intros [s Hs]. destruct (dot v1 v2) eqn:Hd; [|done].
      destruct (decide (length v1 = length v2)) as [|Hne]; [done|].
      apply dot_None_iff in Hne. congruence.
    + intros Hlen. destruct (dot_is_Some v1 v2 Hlen) as [d ->].
      destruct (_ || _); eauto.
  - intros Hne%dot_None_iff.
    unfold are_embeddings_different, _cosine_similarity. by rewrite Hne.
Qed.

Lemma X2_witness :
  _cosine_similarity [1] [1; 0] = Raise (shapes_not_aligned [1] [1; 0]) /\
  are_embeddings_different (8 / 10) [1] [1; 0]
  = Raise (shapes_not_aligned [1] [1; 0]).
Proof.
  apply (X2_shape_mismatch_raises (8 / 10) [1] [1; 0]). simpl. lia.
Defined.

(** The quadratic [sum (x t + y)^2] is never negative. *)
Lemma quadratic_nonneg v1 v2 d :
  dot v1 v2 = Some d ->
  forall t, 0 <= sum_squares v1 * (t * t) + 2 * d * t + sum_squares v2.
Proof.
  revert v2 d. induction v1 as [|x v1 IH]; intros [|y v2] d; simpl;
    try done.
  - intros [= <-] t. lra.
  - destruct (dot v1 v2) as [d'|] eqn:Hd; [|done]. intros [= <-] t.
    specialize (IH v2 d' Hd t).
    pose proof (Rle_0_sqr (x * t + y)) as Hsq. unfold Rsqr in Hsq. nra.
Qed.

(** The Cauchy-Schwarz inequality for [np.dot]. *)
Lemma dot_sqr_le v1 v2 d :
  dot v1 v2 = Some d -> d * d <= sum_squares v1 * sum_squares v2.
Proof.
  intros Hd. pose proof (quadratic_nonneg v1 v2 d Hd) as Hq.
  pose proof (sum_squares_nonneg v1) as Ha.
  pose proof (sum_squares_nonneg v2) as Hc.
  destruct (Req_dec_T (sum_squares v1) 0) as [Hz|Hnz].
  - rewrite Hz in *.
    destruct (Req_dec_T d 0) as [->|Hd0]; [lra|].
    specialize (Hq (- (sum_squares v2 + 1) / (2 * d))).
    assert (2 * d * (- (sum_squares v2 + 1) / (2 * d))
            = - (sum_squares v2 + 1)) as Heq by (by field).
    lra.
  - specialize (Hq (- d / sum_squares v1)).
    assert (sum_squares v1 * (- d / sum_squares v1 * (- d / sum_squares v1))
            + 2 * d * (- d / sum_squares v1) + sum_squares v2
            = (sum_squares v1 * sum_squares v2 - d * d) / sum_squares v1)
      as Heq by (by field).
    rewrite Heq in Hq.
    assert (0 < sum_squares v1) as Hpos by lra.
    assert (0 <= sum_squares v1 * sum_squares v2 - d * d); [|lra].
    apply (Rmult_le_reg_r (/ sum_squares v1)).
    + by apply Rinv_0_lt_compat.
    + rewrite Rmult_0_l. exact Hq.
Qed.

Lemma norm_nonneg v : 0 <= norm v.
Proof. apply sqrt_pos. Qed.



Lemma dot_scaled k v :
  dot v (map (Rmult k) v) = Some (k * sum_squares v).
Proof.
  induction v as [|x v IH]; simpl; [f_equal; lra|].
  rewrite IH. f_equal. lra.
Qed.

Lemma sum_squares_scaled k v :
  sum_squares (map (Rmult k) v) = (k * k) * sum_squares v.
Proof. induction v as [|x v IH]; simpl; [lra|]. rewrite IH. lra. Qed.

Lemma norm_scaled k v : norm (map (Rmult k) v) = Rabs k * norm v.
Proof.
  unfold norm. rewrite sum_squares_scaled.
  rewrite sqrt_mult_alt by (pose proof (Rle_0_sqr k) as H; exact H).
  f_equal. apply sqrt_Rsqr_abs.
Qed.



End MoreEmbeddingFacts.

Section ListCheckFacts.

Context {embedder : Embedder}.

Lemma py_all_false {A} (f : A -> result bool) (l : list A) :
  py_all f l = Ok false <->
  exists l1 x l2,
    l = l1 ++ x :: l2 /\ (forall y, y ∈ l1 -> f y = Ok true) /\
    f x = Ok false.
Proof.
  induction l as [|y l IH]; simpl.
  - split; [done|]. intros (l1 & x & l2 & Hl & _). by destruct l1.
  - destruct (f y) as [[]|e] eqn:Hy.
    + rewrite IH. split.
      * intros (l1 & x & l2 & -> & Hall & Hx).
        exists (y :: l1), x, l2. split; [done|]. split; [|done].
        intros z [->|Hz]%elem_of_cons; [done|by apply Hall].
      * intros (l1 & x & l2 & Hl & Hall & Hx).
        destruct l1 as [|z l1]; simpl in Hl; injection Hl as -> ->.
        { congruence. }
        exists l1, x, l2. split; [done|]. split; [|done].
        intros z' Hz'. apply Hall. by right.
    + split; [|done]. intros _. exists [], y, l. split; [done|].
      split; [|done]. by intros z ?%elem_of_nil.
    + split; [done|].
      intros (l1 & x & l2 & Hl & Hall & Hx).
      destruct l1 as [|z l1]; simpl in Hl; injection Hl as -> ->.
      { congruence. }
      assert (f z = Ok true) by (apply Hall; by left). congruence.
Qed.

Lemma py_all_true_iff {A} (f : A -> result bool) (l : list A) :
  py_all f l = Ok true <-> forall x, x ∈ l -> f x = Ok true.
Proof.
  split; [apply py_all_true|].
  induction l as [|y l IH]; simpl; [done|]. intros Hall.
  rewrite (Hall y) by (by left). apply IH. intros x Hx. apply Hall.
  by right.
Qed.

(** X5 -- the check against a list answers "different" exactly when the
    candidate is different from every embedding of the list (so always
    for the empty list), and "not different" exactly when some embedding
    of the list is not different from the candidate while all before it
    are; what follows the first such embedding is not looked at. *)
Theorem X5_list_check (embedding : list R) (list_embedding : list (list R)) :
  (is_embedding_different_from_list embedding list_embedding = Ok true <->
   forall other, other ∈ list_embedding ->
     are_embeddings_different embedding other = Ok true) /\
  (is_embedding_different_from_list embedding list_embedding = Ok false <->
   exists before other after,
     list_embedding = before ++ other :: after /\
     (forall e, e ∈ before ->
        are_embeddings_different embedding e = Ok true) /\
     are_embeddings_different embedding other = Ok false).
Proof.
  unfold is_embedding_different_from_list.
  split; [apply py_all_true_iff|apply py_all_false].
Qed.

End ListCheckFacts.

(** ** The retry loop *)

Section MoreRetryFacts.

Context {T : Type}.
Variable rs : RetryStrategy.
Variable name : string.
Variable op : M T.

Lemma attempt_loop_after_failures k w w1 last :
  attempts_fail rs op k w w1 last ->
  forall m prev,
    Retry.attempt_loop rs op (k + m) prev w
    = Retry.attempt_loop rs op m
        (match last with Some e => Some e | None => prev end) w1.
Proof.
  induction 1 as [w|k w e w1 w2 last Hop Hretry _ IH]; intros m prev;
    [done|].
  cbn [Nat.add Retry.attempt_loop]. rewrite Hop, Hretry. simpl.
  rewrite IH. by destruct last.
Qed.

(** X6 -- when the first [k] calls of the operation raise exceptions the
    retry predicate accepts and the next call returns, with [k] below
    [max_attempts], [execute] returns that result in the world that call
    left: nothing is called after the first success. *)
Theorem X6_returns_first_success (k : nat) (w w1 w2 : world)
    (last : option exn) (r : T) :
  attempts_fail rs op k w w1 last ->
  op w1 = (Ok r, w2) ->
  k < max_attempts rs ->
  Retry.execute rs name op w = (Ok r, w2).
Proof.
  intros Hfail Hop Hk. unfold Retry.execute.
  replace (max_attempts rs) with (k + S (max_attempts rs - S k)) by lia.
  rewrite (attempt_loop_after_failures _ _ _ _ Hfail).
  cbn [Retry.attempt_loop]. by rewrite Hop.
Qed.

(** X7 -- an exception the retry predicate refuses ends the loop at
    once, also when attempts are left: [execute] raises the [ValueError]
    built from that exception, whose message still says "after
    [max_attempts] attempts". *)
Theorem X7_refused_exception_stops (k : nat) (w w1 w2 : world)
    (last : option exn) (e : exn) :
  attempts_fail rs op k w w1 last ->
  op w1 = (Raise e, w2) ->
  should_retry rs e = false ->
  k < max_attempts rs ->
  Retry.execute rs name op w
  = (Raise (ValueError
       ("Function '" +:+ name +:+ "' " +:+ lower (error_message rs)
        +:+ " after " +:+ pretty (max_attempts rs)
        +:+ " attempts. Last error: " +:+ str e)), w2).
Proof.
  intros Hfail Hop Hretry Hk.
  assert (Retry.attempt_loop rs op (max_attempts rs) None w
          = (inr (Some e), w2)) as Hloop.
  { replace (max_attempts rs) with (k + S (max_attempts rs - S k)) by lia.
    rewrite (attempt_loop_after_failures _ _ _ _ Hfail).
    cbn [Retry.attempt_loop]. by rewrite Hop, Hretry. }
  unfold Retry.execute. rewrite Hloop. reflexivity.
Qed.

Lemma attempt_loop_calls (count : world -> nat) k prev w :
  (forall w0, count (op w0).2 = S (count w0)) ->
  count w <= count (Retry.attempt_loop rs op k prev w).2 <= count w + k /\
  (0 < k -> count w < count (Retry.attempt_loop rs op k prev w).2).
Proof.
  intros Hop. revert prev w.
  induction k as [|k IH]; intros prev w; simpl; [lia|].
  specialize (Hop w). destruct (op w) as [[a|e] w1]; simpl in *; [lia|].
  destruct (negb (should_retry rs e)); simpl; [lia|].
  specialize (IH (Some e) w1). lia.
Qed.

Lemma attempt_loop_last k prev w last w' :
  0 < k ->
  Retry.attempt_loop rs op k prev w = (inr last, w') -> is_Some last.
Proof.
  revert prev w. induction k as [|k IH]; intros prev w Hk; [lia|]. simpl.
  destruct (op w) as [[a|e] w1]; [done|].
  destruct (negb (should_retry rs e)); [by intros [= <- <-]|].
  destruct k as [|k]; [by intros [= <- <-]|]. apply IH. lia.
Qed.

Lemma execute_raise_last w e w' :
  0 < max_attempts rs ->
  Retry.execute rs name op w = (Raise e, w') ->
  exists last,
    e = ValueError
          ("Function '" +:+ name +:+ "' " +:+ lower (error_message rs)
           +:+ " after " +:+ pretty (max_attempts rs)
           +:+ " attempts. Last error: " +:+ str last).
Proof.
  intros Hmax. unfold Retry.execute.
  destruct (Retry.attempt_loop rs op (max_attempts rs) None w)
    as [[a|last] w1] eqn:Hloop; [done|]. intros [= <- <-].
  destruct (attempt_loop_last _ _ _ _ _ Hmax Hloop) as [e' ->].
  by exists e'.
Qed.


End MoreRetryFacts.

(** Two rejected attempts, then one that returns: the third call's
    result. *)
Lemma X6_witness :
  Retry.execute five_attempts "generate_and_validate" third_call_succeeds
    empty_world
  = (Ok "third", bump_chat (bump_chat (bump_chat empty_world))).
Proof.
  apply (X6_returns_first_success five_attempts "generate_and_validate"
           third_call_succeeds 2
           empty_world (bump_chat (bump_chat empty_world))
           (bump_chat (bump_chat (bump_chat empty_world)))
           (Some (ValueError "too similar")) "third").
  - apply (attempts_fail_S five_attempts third_call_succeeds 1 empty_world
             (ValueError "too similar") (bump_chat empty_world)
             (bump_chat (bump_chat empty_world))
             (Some (ValueError "too similar")));
      [reflexivity..|].
    apply (attempts_fail_S five_attempts third_call_succeeds 0
             (bump_chat empty_world) (ValueError "too similar")
             (bump_chat (bump_chat empty_world))
             (bump_chat (bump_chat empty_world)) None);
      [reflexivity..|].
    apply attempts_fail_O.
  - reflexivity.
  - simpl. lia.
Defined.

(** A strategy that retries only [ValueError]s meets a provider error on
    its second call. *)
Lemma X7_witness :
  Retry.execute value_errors_only "fetch" second_call_breaks empty_world
  = (Raise (ValueError
       "Function 'fetch' operation failed after 5 attempts. Last error: connection lost"),
     bump_chat (bump_chat empty_world)).
Proof.
  apply (X7_refused_exception_stops value_errors_only "fetch"
           second_call_breaks 1 empty_world
           (bump_chat empty_world) (bump_chat (bump_chat empty_world))
           (Some (ValueError "too similar"))
           (ProviderError "connection lost")).
  - apply (attempts_fail_S value_errors_only second_call_breaks 0 empty_world
             (ValueError "too similar") (bump_chat empty_world)
             (bump_chat empty_world) None);
      [reflexivity..|].
    apply attempts_fail_O.
  - reflexivity.
  - reflexivity.
  - simpl. lia.
Defined.


(** ** The question store *)

Lemma omap_ext_in {A B} (f g : A -> option B) (l : list A) :
  (forall x, x ∈ l -> f x = g x) -> omap f l = omap g l.
Proof.
  induction l as [|x l IH]; intros Hfg; [done|]. csimpl.
  rewrite (Hfg x) by (by left). rewrite IH; [done|].
  intros y Hy. apply Hfg. by right.
Qed.

Lemma NoDup_omap {A B} (f : A -> option B) (l : list A) :
  (forall x y z, f x = Some z -> f y = Some z -> x = y) ->
  NoDup l -> NoDup (omap f l).
Proof.
  intros Hinj. induction 1 as [|x l Hx Hl IH]; csimpl; [constructor|].
  destruct (f x) as [z|] eqn:Hfx; [|done]. constructor; [|done].
  intros (y & Hy & Hfy)%list_elem_of_omap.
  by rewrite (Hinj x y z Hfx Hfy) in Hx.
Qed.

(** Listing after one more identifier has got a value. *)
Lemma omap_elements_insert {B} (f f' : N -> option B) (X : gset N) id b :
  f id = None -> f' id = Some b ->
  (forall k, k <> id -> f' k = f k) ->
  omap f' (elements ({[id]} ∪ X)) ≡ₚ b :: omap f (elements X).
Proof.
  intros Hfid Hf'id Hother.
  assert ({[id]} ∪ X = {[id]} ∪ (X ∖ {[id]})) as ->.
  { apply set_eq. intros k. destruct (decide (k = id)); set_solver. }
  rewrite elements_union_singleton by set_solver. csimpl. rewrite Hf'id.
  constructor.
  rewrite (omap_ext_in f' f).
  2:{ intros k Hk%elem_of_elements. apply Hother. set_solver. }
  destruct (decide (id ∈ X)) as [Hin|Hnotin].
  - assert (X = {[id]} ∪ (X ∖ {[id]})) as HX.
    { apply set_eq. intros k. destruct (decide (k = id)); set_solver. }
    rewrite HX at 2. rewrite elements_union_singleton by set_solver.
    csimpl. by rewrite Hfid.
  - assert (X ∖ {[id]} = X) as -> by set_solver. done.
Qed.

Section QuestionStoreFacts.

Variable env : environment.

Lemma add_question_lookup request candidate w q w' :
  add_question env request candidate w = (Ok q, w') ->
  question_id_of q = uuid1 env (uuid_calls w) /\
  question_metadata q
  = {| created_at := now env (clock_calls w); app_version := "0.1.0" |} /\
  (forall id, get_question id w'
              = if decide (question_id_of q = id) then Some q
                else get_question id w) /\
  (forall user, Redis.smembers user (user_questions w')
                = if decide (user_id request = user)
                  then {[question_id_of q]}
                       ∪ Redis.smembers user (user_questions w)
                  else Redis.smembers user (user_questions w)).
Proof.
  intros Hadd.
  pose proof (add_question_ok _ _ _ _ _ _ Hadd)
    as (_ & _ & _ & Hqs & Huqs).
  assert (question_id_of q = uuid1 env (uuid_calls w) /\
          question_metadata q
          = {| created_at := now env (clock_calls w);
               app_version := "0.1.0" |}) as [Hid Hmeta].
  { revert Hadd. unfold add_question. simpl.
    destruct (Redis.exists_ _ _); [done|].
    destruct candidate; [|done]. by intros [= <- <-]. }
  split; [done|]. split; [done|]. split.
  - intros id. unfold get_question. rewrite Hqs.
    by rewrite hgetall_expire, hgetall_hset.
  - intros user. rewrite Huqs. by rewrite smembers_expire, smembers_sadd.
Qed.

(** X9 -- a question that [add_question] returns can be fetched at once
    and comes back equal; it carries the content and the request it was
    added with and the application version "0.1.0"; every other
    identifier fetches what it fetched before. *)
Theorem X9_add_then_get_question (request : QuestionGenerationRequest)
    (content : QuestionContent) (w w' : world) (q : GeneratedQuestion) :
  add_question env request (Some content) w = (Ok q, w') ->
  get_question (question_id_of q) w' = Some q /\
  question_content q = content /\
  question_request q = request /\
  app_version (question_metadata q) = "0.1.0" /\
  get_question (question_id_of q) w = None /\
  forall id, id <> question_id_of q ->
    get_question id w' = get_question id w.
Proof.
  intros Hadd.
  pose proof (add_question_ok _ _ _ _ _ _ Hadd)
    as ([= ->] & Hreq & Hfresh & _).
  pose proof (add_question_lookup _ _ _ _ _ Hadd)
    as (_ & Hmeta & Hget & _).
  repeat split; try done.
  - rewrite Hget. by rewrite decide_True.
  - by rewrite Hmeta.
  - unfold get_question, Redis.hgetall. by rewrite Hfresh.
  - intros id Hid. rewrite Hget. by rewrite decide_False.
Qed.

Lemma list_questions_by_user_add request candidate w w' q :
  add_question env request candidate w = (Ok q, w') ->
  list_questions_by_user (user_id request) w'
  ≡ₚ q :: list_questions_by_user (user_id request) w.
Proof.
  intros Hadd.
  pose proof (add_question_ok _ _ _ _ _ _ Hadd) as (_ & _ & Hfresh & _).
  pose proof (add_question_lookup _ _ _ _ _ Hadd)
    as (_ & _ & Hget & Hmem).
  unfold list_questions_by_user. rewrite Hmem, decide_True by done.
  apply omap_elements_insert.
  - unfold get_question, Redis.hgetall. by rewrite Hfresh.
  - rewrite Hget. by rewrite decide_True.
  - intros k Hk. rewrite Hget. by rewrite decide_False.
Qed.

(** X10 -- after [add_question] returns a question, the list of its
    user's questions is the list from before with the new question added
    (in some order); the list of another user, whose set does not hold
    the new identifier, is what it was. *)
Theorem X10_list_after_add (request : QuestionGenerationRequest)
    (candidate : option QuestionContent) (w w' : world)
    (q : GeneratedQuestion) :
  add_question env request candidate w = (Ok q, w') ->
  list_questions_by_user (user_id request) w'
  ≡ₚ q :: list_questions_by_user (user_id request) w /\
  forall user,
    user <> user_id request ->
    question_id_of q ∉ Redis.smembers user (user_questions w) ->
    list_questions_by_user user w' = list_questions_by_user user w.
Proof.
  intros Hadd.
  pose proof (add_question_ok _ _ _ _ _ _ Hadd) as (_ & _ & Hfresh & _).
  pose proof (add_question_lookup _ _ _ _ _ Hadd)
    as (_ & _ & Hget & Hmem).
  split; [by eapply list_questions_by_user_add|].
  intros user Huser Hnotin. unfold list_questions_by_user.
  rewrite Hmem, decide_False by done.
  apply omap_ext_in. intros k Hk%elem_of_elements.
  rewrite Hget. rewrite decide_False; [done|]. by intros <-.
Qed.

Lemma elem_of_list_questions_by_user user w q :
  q ∈ list_questions_by_user user w <->
  exists id, id ∈ Redis.smembers user (user_questions w) /\
             get_question id w = Some q.
Proof.
  unfold list_questions_by_user. rewrite list_elem_of_omap.
  by setoid_rewrite elem_of_elements.
Qed.

(** X11 -- listing reads the user's set and skips, without an error,
    every identifier whose hash is gone: the list holds exactly the
    questions fetched from the identifiers of the set, and is no longer
    than the set. *)
Theorem X11_list_skips_missing (user : UUID) (w : world) :
  (forall q, q ∈ list_questions_by_user user w <->
     exists id, id ∈ Redis.smembers user (user_questions w) /\
                get_question id w = Some q) /\
  length (list_questions_by_user user w)
  <= size (Redis.smembers user (user_questions w)).
Proof.
  split; [intros q; apply elem_of_list_questions_by_user|].
  unfold list_questions_by_user.
  - unfold size, set_size. simpl.
    generalize (elements (Redis.smembers user (user_questions w))).
    intros l. induction l as [|k l IH]; csimpl; [done|].
    destruct (get_question k w); simpl; lia.
Qed.

(** Whatever [add_question] raises, it has written nothing. *)
Lemma add_question_raise request candidate w e w' :
  add_question env request candidate w = (Raise e, w') ->
  questions w' = questions w /\ user_questions w' = user_questions w /\
  tips w' = tips w /\ question_tips w' = question_tips w /\
  uuid_calls w' = S (uuid_calls w).
Proof.
  unfold add_question. simpl.
  destruct (Redis.exists_ _ _); [by intros [= <- <-]|].
  destruct candidate; [done|]. by intros [= <- <-].
Qed.

Lemma add_question_consistent request candidate w r w' :
  question_store_consistent w ->
  add_question env request candidate w = (r, w') ->
  question_store_consistent w'.
Proof.
  intros [Hhash Hindex] Hadd. destruct r as [q|e].
  - pose proof (add_question_ok _ _ _ _ _ _ Hadd)
      as (_ & Hreq & Hfresh & _).
    pose proof (add_question_lookup _ _ _ _ _ Hadd)
      as (_ & _ & Hget & Hmem).
    assert (get_question (question_id_of q) w = None) as Hnone.
    { unfold get_question, Redis.hgetall. by rewrite Hfresh. }
    split.
    + intros id q0. rewrite Hget. case_decide as Hid.
      * intros [= <-]. split; [done|]. rewrite Hmem, Hreq.
        rewrite decide_True by done. set_solver.
      * intros Hq0. destruct (Hhash id q0 Hq0) as [Hid0 Hin].
        split; [done|]. rewrite Hmem. case_decide; set_solver.
    + intros user id. rewrite Hmem, Hget. case_decide as Huser.
      * intros [->%elem_of_singleton|Hin]%elem_of_union.
        -- rewrite decide_True by done. exists q. by rewrite Hreq.
        -- destruct (Hindex user id Hin) as (q0 & Hq0 & Hu0).
           case_decide as Hid; [congruence|]. eauto.
      * intros Hin. destruct (Hindex user id Hin) as (q0 & Hq0 & Hu0).
        case_decide as Hid; [congruence|]. eauto.
  - apply add_question_raise in Hadd as (Hqs & Huqs & _).
    unfold question_store_consistent, get_question. rewrite Hqs, Huqs.
    by split.
Qed.

End QuestionStoreFacts.

(** The first question stored for user 7 in the empty store. *)
Lemma X9_witness :
  get_question 10%N (world_A steady_provider) = Some question_A /\
  get_question 10%N (bump_chat empty_world) = None.
Proof.
  destruct (X9_add_then_get_question steady_provider sample_request
              (sample_content "A") (bump_chat empty_world)
              (world_A steady_provider) question_A eq_refl)
    as (Hget & _ & _ & _ & Hfresh & _).
  split; [exact Hget|exact Hfresh].
Defined.

Lemma X10_witness :
  list_questions_by_user 7%N (world_A steady_provider)
  ≡ₚ question_A :: list_questions_by_user 7%N (bump_chat empty_world).
Proof.
  exact (proj1 (X10_list_after_add steady_provider sample_request
                  (Some (sample_content "A")) (bump_chat empty_world)
                  (world_A steady_provider) question_A eq_refl)).
Defined.

Section QuestionStoreInvariant.

Variable env : environment.

Lemma empty_store_consistent w :
  questions w = ∅ -> user_questions w = ∅ -> question_store_consistent w.
Proof.
  intros Hq Hu. unfold question_store_consistent, get_question,
    Redis.hgetall, Redis.smembers. rewrite Hq, Hu. split.
  - intros id q. by rewrite lookup_empty.
  - intros user id. rewrite lookup_empty. simpl. set_solver.
Qed.

(** X12 -- the store after [flushall] is consistent, [add_question]
    keeps it consistent whether it returns or raises, and in a consistent
    store the list of a user's questions holds every stored question
    whose request is by that user, each once, and nothing else. *)
Theorem X12_consistent_store :
  question_store_consistent empty_world /\
  (forall request candidate w r w',
     question_store_consistent w ->
     add_question env request candidate w = (r, w') ->
     question_store_consistent w') /\
  (forall user w,
     question_store_consistent w ->
     NoDup (list_questions_by_user user w) /\
     forall q, q ∈ list_questions_by_user user w <->
       get_question (question_id_of q) w = Some q /\
       user_id (question_request q) = user).
Proof.
  split; [by apply empty_store_consistent|].
  split; [apply add_question_consistent|].
  intros user w [Hhash Hindex]. split.
  - unfold list_questions_by_user. apply NoDup_omap; [|apply NoDup_elements].
    intros x y q Hx Hy.
    destruct (Hhash x q Hx) as [<- _]. by destruct (Hhash y q Hy) as [<- _].
  - intros q. rewrite elem_of_list_questions_by_user. split.
    + intros (id & Hin & Hget).
      destruct (Hhash id q Hget) as [Hid _]. rewrite Hid.
      split; [done|].
      destruct (Hindex user id Hin) as (q' & Hget' & Huser). congruence.
    + intros [Hget Huser]. exists (question_id_of q). split; [|done].
      destruct (Hhash _ q Hget) as [_ Hin]. by rewrite Huser in Hin.
Qed.

(** X13 -- [add_question] sets the expiration of the two keys it writes,
    the question's hash and the user's set, to [EXPIRATION_SECONDS], and
    leaves every other key as it was: older questions of the user keep
    the expiration they had. *)
Theorem X13_add_refreshes_expiration
    (request : QuestionGenerationRequest)
    (candidate : option QuestionContent) (w w' : world)
    (q : GeneratedQuestion) :
  add_question env request candidate w = (Ok q, w') ->
  ttl <$> questions w' !! question_id_of q
  = Some (Some (EXPIRATION_SECONDS env)) /\
  ttl <$> user_questions w' !! user_id request
  = Some (Some (EXPIRATION_SECONDS env)) /\
  (forall id, id <> question_id_of q ->
     questions w' !! id = questions w !! id) /\
  (forall user, user <> user_id request ->
     user_questions w' !! user = user_questions w !! user) /\
  tips w' = tips w /\ question_tips w' = question_tips w.
Proof.
  intros Hadd.
  pose proof (add_question_ok _ _ _ _ _ _ Hadd)
    as (_ & _ & _ & Hqs & Huqs).
  rewrite Hqs, Huqs. unfold Redis.expire, Redis.hset, Redis.sadd.
  repeat split.
  - by rewrite lookup_alter_eq, lookup_insert_eq.
  - by rewrite lookup_alter_eq, lookup_insert_eq.
  - intros id Hid. by rewrite lookup_alter_ne, lookup_insert_ne.
  - intros user Huser. by rewrite lookup_alter_ne, lookup_insert_ne.
  - revert Hadd. unfold add_question. simpl.
    destruct (Redis.exists_ _ _); [done|].
    destruct candidate; [|done]. by intros [= <- <-].
  - revert Hadd. unfold add_question. simpl.
    destruct (Redis.exists_ _ _); [done|].
    destruct candidate; [|done]. by intros [= <- <-].
Qed.

Lemma add_question_raise_cases request candidate w e w' :
  add_question env request candidate w = (Raise e, w') ->
  e = ValueError ("Question with ID "
                  +:+ pretty (uuid1 env (uuid_calls w))
                  +:+ " already exists.")
  \/ e = AttributeError "'NoneType' object has no attribute 'model_dump'".
Proof.
  unfold add_question. simpl.
  destruct (Redis.exists_ _ _); [intros [= <- <-]; by left|].
  destruct candidate; [done|]. intros [= <- <-]. by right.
Qed.

(** X14 -- an [add_question] that raises has written nothing: the four
    families of keys are as before, one identifier has been used, and the
    error is the collision error or, for a missing content, the
    [AttributeError] of [model_dump]. *)
Theorem X14_failed_add_writes_nothing
    (request : QuestionGenerationRequest)
    (candidate : option QuestionContent) (w w' : world) (e : exn) :
  add_question env request candidate w = (Raise e, w') ->
  questions w' = questions w /\ user_questions w' = user_questions w /\
  tips w' = tips w /\ question_tips w' = question_tips w /\
  uuid_calls w' = S (uuid_calls w) /\
  (e = ValueError ("Question with ID "
                   +:+ pretty (uuid1 env (uuid_calls w))
                   +:+ " already exists.") /\
   is_Some (questions w !! uuid1 env (uuid_calls w))
   \/
   e = AttributeError "'NoneType' object has no attribute 'model_dump'" /\
   candidate = None).
Proof.
  intros Hadd.
  pose proof (add_question_raise _ _ _ _ _ _ Hadd)
    as (H1 & H2 & H3 & H4 & H5).
  repeat split; try done.
  revert Hadd. unfold add_question. simpl.
  destruct (Redis.exists_ _ _) eqn:Hex.
  - intros [= <- <-]. left. split; [done|]. by apply exists_true.
  - destruct candidate; [done|]. intros [= <- <-]. by right.
Qed.

End QuestionStoreInvariant.

Lemma X12_witness :
  question_store_consistent (world_A steady_provider) /\
  NoDup (list_questions_by_user 7%N (world_A steady_provider)).
Proof.
  destruct (X12_consistent_store steady_provider) as (_ & Hkeep & Hlist).
  assert (question_store_consistent (world_A steady_provider)) as Hc.
  { apply (Hkeep sample_request (Some (sample_content "A"))
             (bump_chat empty_world) (Ok question_A)
             (world_A steady_provider)); [|reflexivity].
    apply empty_store_consistent; reflexivity. }
  split; [exact Hc|]. apply (Hlist 7%N _ Hc).
Defined.

Lemma X13_witness :
  ttl <$> questions (world_A steady_provider) !! 10%N
  = Some (Some 3600%positive) /\
  ttl <$> user_questions (world_A steady_provider) !! 7%N
  = Some (Some 3600%positive).
Proof.
  destruct (X13_add_refreshes_expiration steady_provider sample_request
              (Some (sample_content "A")) (bump_chat empty_world)
              (world_A steady_provider) question_A eq_refl)
    as (Hq & Hu & _).
  split; [exact Hq|exact Hu].
Defined.

(** The identifier of the stored question comes up again. *)
Lemma X14_witness :
  questions (bump_uuid world_with_question) = questions world_with_question
  /\ user_questions (bump_uuid world_with_question)
     = user_questions world_with_question.
Proof.
  destruct (X14_failed_add_writes_nothing (colliding_provider 1%N)
              sample_request (Some (sample_content "Why?"))
              world_with_question (bump_uuid world_with_question)
              (ValueError "Question with ID 1 already exists.") eq_refl)
    as (Hq & Hu & _).
  split; [exact Hq|exact Hu].
Defined.

(** ** The tip store *)

Section TipStoreFacts.

Variable env : environment.

Lemma add_tip_lookup request candidate w t w' :
  add_tip env request candidate w = (Ok t, w') ->
  candidate = Some (tip_content t) /\
  tip_request t = request /\
  tip_id_of t = uuid1 env (uuid_calls w) /\
  tip_metadata t
  = {| created_at := now env (clock_calls w); app_version := "0.1.0" |} /\
  get_tip (tip_id_of t) w = None /\
  (forall id, get_tip id w'
              = if decide (tip_id_of t = id) then Some t
                else get_tip id w) /\
  (forall question, Redis.smembers question (question_tips w')
                    = if decide (question_id request = question)
                      then {[tip_id_of t]}
                           ∪ Redis.smembers question (question_tips w)
                      else Redis.smembers question (question_tips w)) /\
  questions w' = questions w /\ user_questions w' = user_questions w.
Proof.
  unfold add_tip. simpl.
  destruct (Redis.exists_ _ _) eqn:Hex; [done|].
  destruct candidate as [content|]; [|done].
  intros [= <- <-]. simpl. apply exists_false in Hex.
  repeat split.
  - unfold get_tip, Redis.hgetall. simpl. by rewrite Hex.
  - intros id. unfold get_tip. simpl.
    by rewrite hgetall_expire, hgetall_hset.
  - intros question. by rewrite smembers_expire, smembers_sadd.
Qed.

Lemma add_tip_raise request candidate w e w' :
  add_tip env request candidate w = (Raise e, w') ->
  questions w' = questions w /\ user_questions w' = user_questions w /\
  tips w' = tips w /\ question_tips w' = question_tips w.
Proof.
  unfold add_tip. simpl.
  destruct (Redis.exists_ _ _); [by intros [= <- <-]|].
  destruct candidate; [done|]. by intros [= <- <-].
Qed.

Lemma add_tip_stored request candidate w w' t :
  add_tip env request candidate w = (Ok t, w') ->
  get_tip (tip_id_of t) w' = Some t /\
  list_tips_for_question (question_id request) w'
  ≡ₚ t :: list_tips_for_question (question_id request) w /\
  questions w' = questions w /\ user_questions w' = user_questions w.
Proof.
  intros Hadd.
  pose proof (add_tip_lookup _ _ _ _ _ Hadd)
    as (_ & _ & _ & _ & Hfresh & Hget & Hmem & Hq & Hu).
  repeat split; try done.
  - rewrite Hget. by rewrite decide_True.
  - unfold list_tips_for_question. rewrite Hmem, decide_True by done.
    apply omap_elements_insert.
    + done.
    + rewrite Hget. by rewrite decide_True.
    + intros k Hk. rewrite Hget. by rewrite decide_False.
Qed.

(** X15 -- a tip that [add_tip] returns can be fetched at once and comes
    back equal, with the content and the request it was added with; the
    list of tips of its question is the list from before with the new
    tip added (in some order); the question store is not touched. *)
Theorem X15_add_then_get_tip (request : TipGenerationRequest)
    (content : TipContent) (w w' : world) (t : GeneratedTip) :
  add_tip env request (Some content) w = (Ok t, w') ->
  get_tip (tip_id_of t) w' = Some t /\
  tip_content t = content /\
  tip_request t = request /\
  app_version (tip_metadata t) = "0.1.0" /\
  (forall id, id <> tip_id_of t -> get_tip id w' = get_tip id w) /\
  list_tips_for_question (question_id request) w'
  ≡ₚ t :: list_tips_for_question (question_id request) w /\
  questions w' = questions w /\ user_questions w' = user_questions w.
Proof.
  intros Hadd.
  pose proof (add_tip_lookup _ _ _ _ _ Hadd)
    as ([= ->] & Hreq & _ & Hmeta & Hfresh & Hget & Hmem & Hq & Hu).
  repeat split; try done.
  - rewrite Hget. by rewrite decide_True.
  - by rewrite Hmeta.
  - intros id Hid. rewrite Hget. by rewrite decide_False.
  - unfold list_tips_for_question. rewrite Hmem, decide_True by done.
    apply omap_elements_insert.
    + done.
    + rewrite Hget. by rewrite decide_True.
    + intros k Hk. rewrite Hget. by rewrite decide_False.
Qed.

End TipStoreFacts.

(** A second tip for the question of [world_with_tip]. *)
Lemma X15_witness :
  let w' :=
    (add_tip steady_provider (Build_TipGenerationRequest 1%N)
       (Some {| tip := "Draw it." |}) world_with_tip).2 in
  get_tip 10%N w' = Some tip_draw_it /\
  list_tips_for_question 1%N w'
  ≡ₚ tip_draw_it :: list_tips_for_question 1%N world_with_tip.
Proof.
  destruct (X15_add_then_get_tip steady_provider
              (Build_TipGenerationRequest 1%N) {| tip := "Draw it." |}
              world_with_tip
              (add_tip steady_provider (Build_TipGenerationRequest 1%N)
                 (Some {| tip := "Draw it." |}) world_with_tip).2
              tip_draw_it eq_refl)
    as (Hget & _ & _ & _ & _ & Hlist & _).
  split; [exact Hget|exact Hlist].
Defined.

(** ** A batch of questions *)

Section MoreRetryLoopFacts.

Context {T : Type}.
Variable rs : RetryStrategy.
Variable op : M T.

(** What holds between the worlds around every failing call holds
    between the world the loop starts in and the world of the call that
    returns, or the world the loop gives up in. *)
Lemma attempt_loop_trace (P : world -> world -> Prop) :
  (forall w, P w w) ->
  (forall w1 w2 w3, P w1 w2 -> P w2 w3 -> P w1 w3) ->
  (forall w0 e w1, op w0 = (Raise e, w1) -> P w0 w1) ->
  forall k prev w res w',
    Retry.attempt_loop rs op k prev w = (res, w') ->
    match res with
    | inl r => exists w0, P w w0 /\ op w0 = (Ok r, w')
    | inr _ => P w w'
    end.
Proof.
  intros Hrefl Htrans Hfail. induction k as [|k IH]; intros prev w res w';
    simpl.
  - intros [= <- <-]. done.
  - destruct (op w) as [[a|e] w1] eqn:Hop.
    + intros [= <- <-]. eauto.
    + specialize (Hfail _ _ _ Hop).
      destruct (negb (should_retry rs e)); [by intros [= <- <-]|].
      intros Hloop. specialize (IH _ _ _ _ Hloop).
      destruct res as [r|last].
      * destruct IH as (w0 & HP & Hw0). exists w0. split; [|done].
        by eapply Htrans.
      * by eapply Htrans.
Qed.

End MoreRetryLoopFacts.

Section BatchResultFacts.

Variable env : environment.
Context {embedder : Embedder}.
Variable rs : RetryStrategy.
Variable request : QuestionGenerationRequest.

(** A generation that returns has called the provider at least once and
    at most [max_attempts] times, and has changed nothing else. *)
Lemma _generate_unique_question_ok previous stored w candidate w' :
  QuestionService._generate_unique_question env rs request previous
    stored w = (Ok candidate, w') ->
  chat_calls w < chat_calls w' <= chat_calls w + max_attempts rs /\
  uuid_calls w' = uuid_calls w /\
  questions w' = questions w /\ user_questions w' = user_questions w.
Proof.
  intros Hgen.
  pose proof (_generate_unique_question_store env rs request previous
                stored w) as Hstore.
  rewrite Hgen in Hstore. simpl in Hstore. destruct Hstore as [Hq Hu].
  revert Hgen. unfold QuestionService._generate_unique_question, retry,
    Retry.execute. simpl.
  set (op := QuestionService.generate_and_validate env request previous
               stored).
  set (strategy := {| max_attempts := max_attempts rs;
                      should_retry := should_retry rs;
                      error_message := error_message rs |}).
  pose proof (attempt_loop_calls strategy op chat_calls (max_attempts rs)
                None w) as [Hle Hlt].
  { intros w0. unfold op.
    by rewrite question_generate_and_validate_world. }
  pose proof (attempt_loop_preserves strategy op
                (fun w w' => uuid_calls w' = uuid_calls w)) as Huuid.
  specialize (Huuid ltac:(done) ltac:(intros ??? ; congruence)).
  specialize (Huuid ltac:(intros w0; unfold op;
                          by rewrite question_generate_and_validate_world)
                (max_attempts rs) None w).
  destruct (Retry.attempt_loop strategy op (max_attempts rs) None w)
    as [[r|last] w1] eqn:Hloop; [|done].
  intros [= <- <-]. simpl in *.
  destruct (max_attempts rs) as [|m]; [done|].
  split; [|done]. split; [apply Hlt; lia|lia].
Qed.

Lemma accepted_run_result k previous stored w items previous' stored' w' :
  accepted_run env rs request k previous stored w items previous'
    stored' w' ->
  uuid_calls w' = uuid_calls w + k /\
  chat_calls w + k <= chat_calls w' <= chat_calls w + k * max_attempts rs
  /\
  (forall q, q ∈ items ->
     get_question (question_id_of q) w = None /\
     question_request q = request) /\
  NoDup (map question_id_of items) /\
  list_questions_by_user (user_id request) w'
  ≡ₚ list_questions_by_user (user_id request) w ++ items.
Proof.
  induction 1 as [previous stored w
                 |k previous stored w candidate w1 q w2 items
                    previous' stored' w3 Hgen Hadd _ IH].
  - split; [lia|]. split; [lia|]. split; [|split].
    + by intros q0 ?%elem_of_nil.
    + constructor.
    + by rewrite app_nil_r.
  - destruct IH as (Huuid & Hchat & Hfresh & Hnodup & Hlist).
    pose proof (_generate_unique_question_ok _ _ _ _ _ Hgen)
      as (Hchat1 & Huuid1 & Hq1 & Hu1).
    pose proof (add_question_chat_calls env request candidate w1) as Hchat2.
    rewrite Hadd in Hchat2. simpl in Hchat2.
    assert (uuid_calls w2 = S (uuid_calls w1)) as Huuid2.
    { revert Hadd. unfold add_question. simpl.
      destruct (Redis.exists_ _ _); [done|].
      destruct candidate; [|done]. by intros [= <- <-]. }
    pose proof (add_question_ok _ _ _ _ _ _ Hadd)
      as (_ & Hreq & Hnone & _).
    pose proof (add_question_lookup _ _ _ _ _ _ Hadd)
      as (_ & _ & Hget & _).
    pose proof (list_questions_by_user_add env request candidate w1 w2 q
                  Hadd) as Hperm.
    assert (forall id, get_question id w1 = get_question id w) as Hsame.
    { intros id. unfold get_question. by rewrite Hq1. }
    assert (list_questions_by_user (user_id request) w1
            = list_questions_by_user (user_id request) w) as Hlist1.
    { unfold list_questions_by_user. rewrite Hu1.
      apply omap_ext_in. intros id _. apply Hsame. }
    split; [lia|]. split; [nia|]. split; [|split].
    + intros q0 Hq0. rewrite <- Hsame.
      apply elem_of_cons in Hq0 as [->|Hin].
      * split; [|done]. unfold get_question, Redis.hgetall.
        by rewrite Hnone.
      * destruct (Hfresh q0 Hin) as [Hnone2 Hreq2]. split; [|done].
        rewrite Hget in Hnone2. by case_decide.
    + simpl. constructor; [|done].
      intros (q' & Hid & Hin)%list_elem_of_fmap.
      destruct (Hfresh q' Hin) as [Hnone2 _]. rewrite Hget in Hnone2.
      rewrite decide_True in Hnone2 by done. done.
    + rewrite Hlist, Hperm, Hlist1. simpl. apply Permutation_middle.
Qed.

End BatchResultFacts.

(** X16 -- a request for [n] questions that returns gives [n] questions
    with pairwise distinct identifiers, none of which was in the store
    before, each carrying the request; it has drawn exactly [n]
    identifiers, has called the provider at least [n] and at most
    [n * max_attempts] times, and the list of the user's questions is the
    list from before with the [n] questions added. *)
Theorem X16_batch_result (env : environment) (embedder : Embedder)
    (rs : RetryStrategy) (request : QuestionGenerationRequest)
    (w w' : world) (items : list GeneratedQuestion) :
  QuestionService.generate_questions env rs request w = (Ok items, w') ->
  length items = n request /\
  NoDup (map question_id_of items) /\
  (forall q, q ∈ items ->
     get_question (question_id_of q) w = None /\
     question_request q = request) /\
  uuid_calls w' = uuid_calls w + n request /\
  chat_calls w + n request <= chat_calls w'
  <= chat_calls w + n request * max_attempts rs /\
  list_questions_by_user (user_id request) w'
  ≡ₚ list_questions_by_user (user_id request) w ++ items.
Proof.
  unfold QuestionService.generate_questions.
  intros (new & previous' & stored' & -> & Hrun)%loop_ok_accepted_run.
  simpl.
  pose proof (accepted_run_length _ _ _ _ _ _ _ _ _ _ _ Hrun) as Hlen.
  pose proof (accepted_run_result _ _ _ _ _ _ _ _ _ _ _ Hrun)
    as (Huuid & Hchat & Hfresh & Hnodup & Hlist).
  split; [done|]. split; [done|]. split; [done|]. split; [done|].
  split; [exact Hchat|done].
Qed.

Lemma X16_witness :
  NoDup (map question_id_of [question_A; question_B]) /\
  list_questions_by_user 7%N (world_AB steady_provider)
  ≡ₚ list_questions_by_user 7%N empty_world ++ [question_A; question_B].
Proof.
  destruct (X16_batch_result steady_provider all_different two_attempts
              sample_request empty_world (world_AB steady_provider)
              [question_A; question_B] eq_refl)
    as (_ & Hnodup & _ & _ & _ & Hlist).
  split; [exact Hnodup|exact Hlist].
Defined.

(** X17 -- every question a request returns has passed the difference
    check against every question the user had stored when the request
    started. *)
Theorem X17_new_questions_differ_from_history (env : environment)
    (embedder : Embedder) (rs : RetryStrategy)
    (request : QuestionGenerationRequest) (w w' : world)
    (items : list GeneratedQuestion) :
  QuestionService.generate_questions env rs request w = (Ok items, w') ->
  forall q old,
    q ∈ items -> old ∈ list_questions_by_user (user_id request) w ->
    are_embeddings_different (get_embedding (question_text q))
      (get_embedding (question_text old)) = Ok true.
Proof.
  unfold QuestionService.generate_questions.
  intros (new & previous' & stored' & -> & Hrun)%loop_ok_accepted_run
    q old Hq Hold.
  simpl in Hq.
  destruct (accepted_run_distinct _ _ _ _ _ _ _ _ _ _ _ Hrun) as [Hstored _].
  apply Hstored; [|done|].
  - destruct (list_questions_by_user (user_id request) w); [|done].
    by apply elem_of_nil in Hold.
  - apply list_elem_of_fmap. by exists old.
Qed.

Lemma X17_witness :
  @are_embeddings_different all_different
    (@get_embedding all_different (question_text question_A))
    (@get_embedding all_different (question_text sample_question)) = Ok true.
Proof.
  apply (X17_new_questions_differ_from_history steady_provider all_different
           two_attempts sample_request world_with_question
           (QuestionService.generate_questions steady_provider
              (embedder := all_different) two_attempts sample_request
              world_with_question).2
           [question_A; question_B]).
  - vm_compute. reflexivity.
  - apply list_elem_of_here.
  - vm_compute. apply list_elem_of_here.
Defined.

(** ** Tips *)

Lemma same_stores_refl w : same_stores w w.
Proof. by repeat split. Qed.

Lemma same_stores_trans w1 w2 w3 :
  same_stores w1 w2 -> same_stores w2 w3 -> same_stores w1 w3.
Proof.
  intros (?&?&?&?) (?&?&?&?). repeat split; congruence.
Qed.

Lemma same_stores_lists w w' :
  same_stores w w' ->
  (forall id, get_question id w' = get_question id w) /\
  (forall question,
     list_tips_for_question question w' = list_tips_for_question question w).
Proof.
  intros (Hq & _ & Ht & Hqt). split.
  - intros id. unfold get_question. by rewrite Hq.
  - intros question. unfold list_tips_for_question, get_tip.
    by rewrite Ht, Hqt.
Qed.

Section TipServiceFacts.

Variable env : environment.
Context {embedder : Embedder}.
Variable rs : RetryStrategy.

(** An attempt of the retried tip generation that raises has written
    nothing. *)
Lemma tip_generate_and_validate_raise gq request previous stored w e w' :
  TipService.generate_and_validate env gq request previous stored w
  = (Raise e, w') ->
  same_stores w w'.
Proof.
  unfold TipService.generate_and_validate, bind.
  pose proof (generate_tip_content_world env gq previous w) as Hw.
  destruct (generate_tip_content env gq previous w)
    as [[[content|]|e0] w1]; simpl in Hw; subst w1.
  - destruct (py_all _ stored) as [[]|e1].
    + intros (?&?&?&?)%add_tip_raise. by repeat split.
    + by intros [= <- <-].
    + by intros [= <- <-].
  - by intros [= <- <-].
  - by intros [= <- <-].
Qed.

(** An attempt that returns has generated a content, passed the check
    against every stored embedding and stored the content. *)
Lemma tip_generate_and_validate_ok gq request previous stored w t w' :
  TipService.generate_and_validate env gq request previous stored w
  = (Ok t, w') ->
  (forall x, x ∈ stored ->
     are_embeddings_different (get_embedding (tip_text t)) x = Ok true) /\
  add_tip env request (Some (tip_content t)) (bump_chat w) = (Ok t, w').
Proof.
  unfold TipService.generate_and_validate, bind.
  pose proof (generate_tip_content_world env gq previous w) as Hw.
  destruct (generate_tip_content env gq previous w)
    as [[[content|]|e0] w1]; simpl in Hw; subst w1; try done.
  destruct (py_all _ stored) as [[]|e1] eqn:Hall; try done.
  intros Hadd.
  pose proof (add_tip_ok _ _ _ _ _ _ Hadd) as [= ->].
  split; [|done]. by apply py_all_true.
Qed.

Lemma generate_tip_wrapper_trace gq request previous stored w r w' :
  TipService.generate_tip_wrapper env rs gq request previous stored w
  = (r, w') ->
  match r with
  | Ok t =>
      exists w0,
        same_stores w w0 /\
        TipService.generate_and_validate env gq request previous stored w0
        = (Ok t, w')
  | Raise _ => same_stores w w'
  end.
Proof.
  unfold TipService.generate_tip_wrapper, retry, Retry.execute. simpl.
  destruct (Retry.attempt_loop _ _ (max_attempts rs) None w)
    as [res w1] eqn:Hloop.
  apply (attempt_loop_trace _ _ same_stores same_stores_refl
           same_stores_trans) in Hloop.
  2:{ intros w0 e w2. apply tip_generate_and_validate_raise. }
  destruct res as [t|last]; by intros [= <- <-].
Qed.

(** X18 -- a tip that [generate_tip] returns is stored under a new
    identifier for the question asked for: it can be fetched, the list of
    the question's tips is the list from before with the tip added, the
    questions are untouched, and the tip has passed the difference check
    against every tip the question had. *)
Theorem X18_generated_tip (question_id : UUID) (w w' : world)
    (t : GeneratedTip) :
  TipService.generate_tip env rs question_id w = (Ok t, w') ->
  tip_request t = Build_TipGenerationRequest question_id /\
  get_tip (tip_id_of t) w = None /\
  get_tip (tip_id_of t) w' = Some t /\
  list_tips_for_question question_id w'
  ≡ₚ t :: list_tips_for_question question_id w /\
  questions w' = questions w /\ user_questions w' = user_questions w /\
  forall old, old ∈ list_tips_for_question question_id w ->
    are_embeddings_different (get_embedding (tip_text t))
      (get_embedding (tip_text old)) = Ok true.
Proof.
  unfold TipService.generate_tip.
  destruct (get_question question_id w) as [gq|]; [|done].
  destruct (list_tips_for_question question_id w) as [|t0 stored_tips]
    eqn:Htips.
  - unfold bind.
    pose proof (generate_tip_content_world env gq [] w) as Hw.
    destruct (generate_tip_content env gq [] w) as [[candidate|e] w1];
      simpl in Hw; subst w1; [|done].
    intros Hadd. pose proof (add_tip_ok _ _ _ _ _ _ Hadd) as ->.
    pose proof (add_tip_lookup _ _ _ _ _ _ Hadd)
      as (_ & Hreq & _ & _ & Hfresh & _).
    pose proof (add_tip_stored env _ _ _ _ _ Hadd)
      as (Hget & Hlist & Hq & Hu).
    simpl in Hlist.
    assert (list_tips_for_question question_id (bump_chat w) = []) as Hl
      by exact Htips.
    rewrite Hl in Hlist.
    repeat split; try done. by intros old ?%elem_of_nil.
  - intros Hcall. apply generate_tip_wrapper_trace in Hcall
      as (w0 & Hsame & Hop).
    apply tip_generate_and_validate_ok in Hop as [Hall Hadd].
    pose proof (add_tip_lookup _ _ _ _ _ _ Hadd)
      as (_ & Hreq & _ & _ & Hfresh & _).
    pose proof (add_tip_stored env _ _ _ _ _ Hadd)
      as (Hget & Hlist & Hq & Hu).
    simpl in Hlist.
    destruct Hsame as (Hq0 & Hu0 & Ht0 & Hqt0).
    assert (forall question,
              list_tips_for_question question (bump_chat w0)
              = list_tips_for_question question w) as Hl.
    { intros question. unfold list_tips_for_question, get_tip. simpl.
      by rewrite Ht0, Hqt0. }
    rewrite Hl, Htips in Hlist.
    assert (get_tip (tip_id_of t) w = None) as Hfresh'.
    { revert Hfresh. unfold get_tip. simpl. by rewrite Ht0. }
    simpl in Hq, Hu.
    repeat split; try done; try congruence.
    intros old Hold. apply Hall, list_elem_of_fmap. by exists old.
Qed.

(** X19 -- a [generate_tip] that raises has stored nothing: the four
    families of keys are as before. *)
Theorem X19_failed_tip_stores_nothing (question_id : UUID) (w w' : world)
    (e : exn) :
  TipService.generate_tip env rs question_id w = (Raise e, w') ->
  same_stores w w'.
Proof.
  unfold TipService.generate_tip.
  destruct (get_question question_id w) as [gq|];
    [|intros [= <- <-]; apply same_stores_refl].
  destruct (list_tips_for_question question_id w) as [|t0 stored_tips].
  - unfold bind.
    pose proof (generate_tip_content_world env gq [] w) as Hw.
    destruct (generate_tip_content env gq [] w) as [[candidate|e0] w1];
      simpl in Hw; subst w1.
    + intros (?&?&?&?)%add_tip_raise. by repeat split.
    + intros [= <- <-]. by repeat split.
  - apply generate_tip_wrapper_trace.
Qed.

End TipServiceFacts.

Lemma X18_witness :
  get_tip 10%N
    (TipService.generate_tip steady_provider (embedder := by_length)
       two_attempts 1%N world_with_tip).2 = Some tip_draw_it /\
  @are_embeddings_different by_length
    (@get_embedding by_length (tip_text tip_draw_it))
    (@get_embedding by_length (tip_text sample_tip)) = Ok true.
Proof.
  destruct (X18_generated_tip steady_provider (embedder := by_length)
              two_attempts 1%N world_with_tip
              (TipService.generate_tip steady_provider
                 (embedder := by_length) two_attempts 1%N world_with_tip).2
              tip_draw_it)
    as (_ & _ & Hget & _ & _ & _ & Hall).
  - vm_compute. reflexivity.
  - split; [exact Hget|]. apply Hall. vm_compute. apply list_elem_of_here.
Defined.

Lemma X19_witness :
  same_stores world_with_tip
    (TipService.generate_tip failing_provider (embedder := all_similar)
       two_attempts 1%N world_with_tip).2.
Proof.
  apply (X19_failed_tip_stores_nothing failing_provider
           (embedder := all_similar) two_attempts 1%N world_with_tip _
           (ValueError
              "Function 'generate_and_validate' operation failed after 2 attempts. Last error: connection lost")).
  vm_compute. reflexivity.
Defined.

(** ** The streaming tip service *)

Section StreamLoopTrace.

Context {A : Type}.
Variable rs : RetryStrategy.
Variable body : world -> list (chunk A) * result A * world.
Variable P : world -> world -> Prop.

Hypothesis P_refl : forall w, P w w.
Hypothesis P_trans : forall w1 w2 w3, P w1 w2 -> P w2 w3 -> P w1 w3.
Hypothesis body_fragments :
  forall w0 out r w1, body w0 = (out, r, w1) -> only_fragments out.
Hypothesis body_raise :
  forall w0 out e w1, body w0 = (out, Raise e, w1) -> P w0 w1.

Lemma only_fragments_app (out1 out2 : list (chunk A)) :
  only_fragments out1 -> only_fragments out2 ->
  only_fragments (out1 ++ out2).
Proof.
  intros [f1 ->] [f2 ->]. exists (f1 ++ f2). by rewrite map_app.
Qed.

Lemma stream_retry_loop_trace k w out r w' :
  0 < k ->
  stream_retry_loop rs body k w = (out, r, w') ->
  match r with
  | Raise _ => only_fragments out /\ P w w'
  | Ok _ =>
      exists earlier w0 last_out stored,
        only_fragments earlier /\ P w w0 /\
        body w0 = (last_out, Ok stored, w') /\
        out = earlier ++ last_out ++ [Final stored]
  end.
Proof.
  revert w out r w'. induction k as [|k IH]; intros w out r w' Hk; [lia|].
  simpl. destruct (body w) as [[o [stored|e]] w1] eqn:Hbody.
  - intros [= <- <- <-]. exists [], w, o, stored.
    split; [by exists []|]. by split.
  - pose proof (body_fragments _ _ _ _ Hbody) as Ho.
    pose proof (body_raise _ _ _ _ Hbody) as HP.
    destruct (Nat.eqb k 0 || negb (should_retry rs e)) eqn:Hstop.
    { by intros [= <- <- <-]. }
    destruct (stream_retry_loop rs body k w1) as [[o' r'] w2] eqn:Hloop.
    intros [= <- <- <-].
    apply orb_false_iff in Hstop as [Hk0%Nat.eqb_neq _].
    specialize (IH w1 o' r' w2 ltac:(lia) Hloop).
    destruct r' as [u|e'].
    + destruct IH as (earlier & w0 & last_out & stored & He & HP0 & Hb
                      & ->).
      exists (o ++ earlier), w0, last_out, stored.
      split; [by apply only_fragments_app|].
      split; [by eapply P_trans|]. split; [done|].
      by rewrite <- app_assoc.
    + destruct IH as [Ho' HP']. split; [by apply only_fragments_app|].
      by eapply P_trans.
Qed.

Lemma stream_retry_loop_after_failures k w outs w1 last :
  stream_attempts_fail rs body k w outs w1 last ->
  forall m out stored w2,
    body w1 = (out, Ok stored, w2) ->
    stream_retry_loop rs body (k + S m) w
    = (outs ++ out ++ [Final stored], Ok tt, w2).
Proof.
  induction 1 as [w|k w o e w1 outs w2 last Hbody Hretry _ IH];
    intros m out stored w3 Hok.
  - simpl. by rewrite Hok.
  - cbn [Nat.add stream_retry_loop]. rewrite Hbody, Hretry.
    replace (Nat.eqb (k + S m) 0) with false
      by (symmetry; apply Nat.eqb_neq; lia).
    simpl. rewrite (IH _ _ _ _ Hok). by rewrite <- app_assoc.
Qed.

End StreamLoopTrace.

Section TipStreamServiceFacts.

Variable env : environment.
Context {embedder : Embedder}.
Variable rs : RetryStrategy.

Lemma tip_drain_stores rest ending w :
  same_stores w (tip_drain rest ending w).2.
Proof.
  revert w. induction rest as [|delta rest IH]; intros w; simpl;
    [apply same_stores_refl|].
  destruct (truthy delta); [|apply IH].
  destruct (_current_tip w) as [current|]; [|apply same_stores_refl].
  specialize (IH (set_current_tip (Some (current +:+ default "" delta)) w)).
  by destruct (tip_drain rest ending _) as [[fragments e] w'].
Qed.

Lemma generate_tip_content_stream_stores gq previous w :
  same_stores w (generate_tip_content_stream env gq previous w).2.
Proof.
  unfold generate_tip_content_stream.
  destruct (tip_stream env _ gq previous) as [stream|e];
    [|by repeat split].
  apply (tip_drain_stores (deltas stream) (ending stream)
           (bump_chat (set_current_tip (Some "") w))).
Qed.

Lemma tip_stream_attempt_trace gq request previous stored w out r w' :
  TipService.stream_attempt env gq request previous stored w
  = (out, r, w') ->
  only_fragments out /\
  match r with
  | Raise _ => same_stores w w'
  | Ok t =>
      exists w1,
        same_stores w w1 /\
        (forall x, x ∈ stored ->
           are_embeddings_different (get_embedding (tip_text t)) x
           = Ok true) /\
        add_tip env request (Some (tip_content t)) w1 = (Ok t, w')
  end.
Proof.
  unfold TipService.stream_attempt.
  pose proof (generate_tip_content_stream_stores gq previous w) as Hs.
  pose proof (generate_tip_content_stream_buffer env gq previous w) as Hb.
  destruct (generate_tip_content_stream env gq previous w)
    as [[fragments [e|]] w1]; simpl in Hs.
  { intros [= <- <- <-]. split; [by exists fragments|done]. }
  unfold bind, get_complete_tip. rewrite Hb.
  destruct stored as [|s stored].
  - simpl.
    destruct (add_tip env request _ w1) as [[t|e] w2] eqn:Hadd;
      intros [= <- <- <-]; (split; [by exists fragments|]).
    + exists w1. split; [done|]. split; [by intros x ?%elem_of_nil|].
      by pose proof (add_tip_ok _ _ _ _ _ _ Hadd) as [= <-].
    + apply add_tip_raise in Hadd as (?&?&?&?).
      eapply same_stores_trans; [exact Hs|]. by repeat split.
  - destruct (py_all _ (s :: stored)) as [[]|e1] eqn:Hall; simpl.
    + destruct (add_tip env request _ w1) as [[t|e] w2] eqn:Hadd;
        intros [= <- <- <-]; (split; [by exists fragments|]).
      * exists w1. split; [done|].
        pose proof (add_tip_ok _ _ _ _ _ _ Hadd) as [= Ht].
        split; [|by rewrite <- Ht].
        unfold tip_text. rewrite <- Ht. by apply py_all_true.
      * apply add_tip_raise in Hadd as (?&?&?&?).
        eapply same_stores_trans; [exact Hs|]. by repeat split.
    + intros [= <- <- <-]. split; [by exists fragments|done].
    + intros [= <- <- <-]. split; [by exists fragments|done].
Qed.

(** X20 -- a tip stream that ends normally has yielded text fragments
    and then, last, one stored tip; that tip is stored under a new
    identifier, the list of the question's tips is the list from before
    with the tip added, and the tip has passed the difference check
    against every tip the question had. *)
Theorem X20_streamed_tip (question_id : UUID) (w w' : world)
    (out : list (chunk GeneratedTip)) :
  0 < max_attempts rs ->
  TipService.generate_tip_stream env rs question_id w = (out, Ok tt, w') ->
  exists fragments t,
    out = map Fragment fragments ++ [Final t] /\
    tip_request t = Build_TipGenerationRequest question_id /\
    get_tip (tip_id_of t) w = None /\
    get_tip (tip_id_of t) w' = Some t /\
    list_tips_for_question question_id w'
    ≡ₚ t :: list_tips_for_question question_id w /\
    forall old, old ∈ list_tips_for_question question_id w ->
      are_embeddings_different (get_embedding (tip_text t))
        (get_embedding (tip_text old)) = Ok true.
Proof.
  intros Hmax. unfold TipService.generate_tip_stream.
  destruct (get_question question_id w) as [gq|]; [|done].
  intros Hloop.
  apply (stream_retry_loop_trace _ _ same_stores same_stores_refl
           same_stores_trans) in Hloop; [| | |done].
  2:{ intros w0 o r w1 H. by apply tip_stream_attempt_trace in H as [? _]. }
  2:{ intros w0 o e w1 H. by apply tip_stream_attempt_trace in H as [_ ?]. }
  destruct Hloop as (earlier & w0 & last_out & t & [f1 ->] & Hsame & Hbody
                     & ->).
  apply tip_stream_attempt_trace in Hbody
    as ([f2 ->] & w1 & Hsame1 & Hall & Hadd).
  pose proof (same_stores_trans _ _ _ Hsame Hsame1) as (_ & _ & Ht & Hqt).
  pose proof (add_tip_lookup _ _ _ _ _ _ Hadd)
    as (_ & Hreq & _ & _ & Hfresh & _).
  pose proof (add_tip_stored env _ _ _ _ _ Hadd) as (Hget & Hlist & _).
  simpl in Hlist.
  assert (forall question,
            list_tips_for_question question w1
            = list_tips_for_question question w) as Hl.
  { intros question. unfold list_tips_for_question, get_tip.
    by rewrite Ht, Hqt. }
  rewrite Hl in Hlist.
  exists (f1 ++ f2), t. split; [by rewrite map_app, <- app_assoc|].
  repeat split; try done.
  - revert Hfresh. unfold get_tip. by rewrite Ht.
  - intros old Hold. apply Hall, list_elem_of_fmap. by exists old.
Qed.

(** X21 -- a tip stream that ends with an exception has yielded text
    fragments only, never a stored tip, and has stored nothing. *)
Theorem X21_failed_stream_stores_nothing (question_id : UUID)
    (w w' : world) (out : list (chunk GeneratedTip)) (e : exn) :
  TipService.generate_tip_stream env rs question_id w
  = (out, Raise e, w') ->
  only_fragments out /\ same_stores w w'.
Proof.
  unfold TipService.generate_tip_stream.
  destruct (get_question question_id w) as [gq|].
  2:{ intros [= <- <- <-]. split; [by exists []|apply same_stores_refl]. }
  destruct (max_attempts rs) as [|k] eqn:Hk; [done|].
  intros Hloop.
  apply (stream_retry_loop_trace _ _ same_stores same_stores_refl
           same_stores_trans) in Hloop; [done| | |lia].
  - intros w0 o r w1 H. by apply tip_stream_attempt_trace in H as [? _].
  - intros w0 o e0 w1 H. by apply tip_stream_attempt_trace in H as [_ ?].
Qed.

(** X22 -- when the first [k] attempts of a tip stream fail with
    exceptions the retry predicate accepts and the next attempt is
    accepted, with [k] below [max_attempts], the caller has received the
    fragments of every failed attempt in order, then those of the
    accepted attempt, then the stored tip. *)
Theorem X22_rejected_fragments_are_delivered (question_id : UUID)
    (generated_question : GeneratedQuestion) (k : nat) (w w1 w2 : world)
    (outs out : list (chunk GeneratedTip)) (last : option exn)
    (t : GeneratedTip) :
  get_question question_id w = Some generated_question ->
  stream_attempts_fail rs
    (TipService.stream_attempt env generated_question
       (Build_TipGenerationRequest question_id)
       (map tip_text (list_tips_for_question question_id w))
       (map (fun t => get_embedding (tip_text t))
          (list_tips_for_question question_id w)))
    k w outs w1 last ->
  TipService.stream_attempt env generated_question
    (Build_TipGenerationRequest question_id)
    (map tip_text (list_tips_for_question question_id w))
    (map (fun t => get_embedding (tip_text t))
       (list_tips_for_question question_id w)) w1
  = (out, Ok t, w2) ->
  k < max_attempts rs ->
  TipService.generate_tip_stream env rs question_id w
  = (outs ++ out ++ [Final t], Ok tt, w2).
Proof.
  intros Hq Hfail Hok Hk. unfold TipService.generate_tip_stream.
  rewrite Hq.
  replace (max_attempts rs) with (k + S (max_attempts rs - S k)) by lia.
  by apply (stream_retry_loop_after_failures _ _ _ _ _ _ _ Hfail).
Qed.

End TipStreamServiceFacts.

Lemma X20_witness :
  exists fragments t,
    (TipService.generate_tip_stream repeating_provider
       (embedder := by_length) two_attempts 1%N world_with_tip).1.1
    = map Fragment fragments ++ [Final t] /\
    get_tip (tip_id_of t)
      (TipService.generate_tip_stream repeating_provider
         (embedder := by_length) two_attempts 1%N world_with_tip).2
    = Some t.
Proof.
  destruct (X20_streamed_tip repeating_provider (embedder := by_length)
              two_attempts 1%N world_with_tip
              (TipService.generate_tip_stream repeating_provider
                 (embedder := by_length) two_attempts 1%N world_with_tip).2
              (TipService.generate_tip_stream repeating_provider
                 (embedder := by_length) two_attempts 1%N
                 world_with_tip).1.1)
    as (fragments & t & Hout & _ & _ & Hget & _).
  - simpl. lia.
  - vm_compute. reflexivity.
  - exists fragments, t. split; [exact Hout|exact Hget].
Defined.

Lemma X21_witness :
  only_fragments
    (TipService.generate_tip_stream failing_provider
       (embedder := all_similar) two_attempts 1%N world_with_tip).1.1 /\
  same_stores world_with_tip
    (TipService.generate_tip_stream failing_provider
       (embedder := all_similar) two_attempts 1%N world_with_tip).2.
Proof.
  apply (X21_failed_stream_stores_nothing failing_provider
           (embedder := all_similar) two_attempts 1%N world_with_tip _ _
           (ProviderError "connection lost")).
  vm_compute. reflexivity.
Defined.

(** The first attempt repeats the stored tip and is rejected, the second
    is accepted: the caller receives the fragments of both. *)
Lemma X22_witness :
  (TipService.generate_tip_stream repeating_provider (embedder := by_length)
     two_attempts 1%N world_with_tip).1
  = ([Fragment "Think "; Fragment "of keys."; Fragment "Draw ";
      Fragment "it."; Final tip_draw_it], Ok tt).
Proof.
  rewrite (X22_rejected_fragments_are_delivered repeating_provider
             (embedder := by_length) two_attempts 1%N sample_question 1
             world_with_tip (repeating_attempt world_with_tip).2
             (repeating_attempt (repeating_attempt world_with_tip).2).2
             [Fragment "Think "; Fragment "of keys."]
             [Fragment "Draw "; Fragment "it."]
             (Some TipService.too_similar) tip_draw_it).
  - reflexivity.
  - vm_compute. reflexivity.
  - apply (stream_attempts_fail_S two_attempts repeating_attempt 0
             world_with_tip [Fragment "Think "; Fragment "of keys."]
             TipService.too_similar (repeating_attempt world_with_tip).2
             [] (repeating_attempt world_with_tip).2 None).
    + vm_compute. reflexivity.
    + reflexivity.
    + apply stream_attempts_fail_O.
  - vm_compute. reflexivity.
  - simpl. lia.
Defined.

(** ** What the streaming generators forward *)

Lemma truthy_contents_cons delta rest :
  truthy_contents (delta :: rest)
  = if truthy delta then default "" delta :: truthy_contents rest
    else truthy_contents rest.
Proof.
  unfold truthy_contents. csimpl. destruct delta as [[|c s]|]; done.
Qed.

Lemma truthy_contents_nonempty deltas :
  Forall (fun fragment => fragment <> "") (truthy_contents deltas).
Proof.
  induction deltas as [|delta rest IH]; [constructor|].
  rewrite truthy_contents_cons.
  destruct delta as [[|c s]|]; simpl; try done. by constructor.
Qed.

Lemma set_current_tip_same w current :
  _current_tip w = Some current -> set_current_tip (Some current) w = w.
Proof. destruct w. simpl. by intros ->. Qed.

Section StreamContents.

Variable env : environment.

Lemma tip_drain_contents rest ending w current :
  _current_tip w = Some current ->
  tip_drain rest ending w
  = (truthy_contents rest, ending,
     set_current_tip
       (Some (current +:+ concat_fragments (truthy_contents rest))) w).
Proof.
  revert w current. induction rest as [|delta rest IH]; intros w current
    Hcur.
  - simpl. rewrite append_empty_r. by rewrite set_current_tip_same.
  - rewrite truthy_contents_cons. simpl.
    destruct (truthy delta); [|by apply IH].
    rewrite Hcur.
    rewrite (IH _ (current +:+ default "" delta)) by done.
    simpl. by rewrite append_assoc.
Qed.

(** X23 -- once the provider has opened the stream, the tip generator
    forwards the content of every delta that is neither missing nor
    empty, in order and nothing else, also when the provider breaks off
    afterwards; it ends as the provider's stream ends, and leaves those
    contents, put end to end, in the buffer. *)
Theorem X23_tip_stream_forwards_contents
    (generated_question : GeneratedQuestion) (previous : list string)
    (w : world) (stream : provider_stream) :
  tip_stream env (chat_calls w) generated_question previous = Ok stream ->
  generate_tip_content_stream env generated_question previous w
  = (truthy_contents (deltas stream), ending stream,
     set_current_tip
       (Some (concat_fragments (truthy_contents (deltas stream))))
       (bump_chat w)) /\
  Forall (fun fragment => fragment <> "")
    (truthy_contents (deltas stream)).
Proof.
  intros Hstream. split; [|apply truthy_contents_nonempty].
  unfold generate_tip_content_stream. simpl. rewrite Hstream.
  by rewrite (tip_drain_contents _ _ _ "").
Qed.

Variable _parse_response : string -> QuestionContent.

Lemma question_drain_contents rest ending text w :
  question_drain _parse_response rest ending text w
  = (truthy_contents rest, ending,
     match ending with
     | None =>
         set_current_question
           (Some (_parse_response
                    (text +:+ concat_fragments (truthy_contents rest)))) w
     | Some _ => w
     end).
Proof.
  revert text. induction rest as [|delta rest IH]; intros text.
  - simpl. rewrite append_empty_r. by destruct ending.
  - rewrite truthy_contents_cons. simpl.
    destruct (truthy delta); [|by apply IH].
    rewrite IH. simpl. rewrite append_assoc. by destruct ending.
Qed.

(** X24 -- the question generator forwards the non-empty contents in the
    same way; when the provider completes, [get_complete_question]
    returns the parse of all of them put end to end, and when the
    provider breaks off it raises "No question has been generated yet",
    whatever an earlier stream had left. *)
Theorem X24_question_stream_result (request : QuestionGenerationRequest)
    (previous : list string) (w : world) (stream : provider_stream) :
  question_stream env (chat_calls w) request previous = Ok stream ->
  let '(fragments, e, w') :=
    generate_question_content_stream env _parse_response request
      previous w in
  fragments = truthy_contents (deltas stream) /\
  e = ending stream /\
  (get_complete_question w').1
  = match ending stream with
    | None => Ok (_parse_response (concat_fragments fragments))
    | Some _ => Raise (ValueError "No question has been generated yet")
    end.
Proof.
  intros Hstream. unfold generate_question_content_stream. simpl.
  rewrite Hstream. rewrite question_drain_contents.
  split; [done|]. split; [done|]. by destruct (ending stream).
Qed.

End StreamContents.

Lemma X23_witness :
  generate_tip_content_stream steady_provider sample_question []
    (set_current_tip (Some "left over") empty_world)
  = (["Draw "; "it."], None,
     set_current_tip (Some "Draw it.") (bump_chat empty_world)).
Proof.
  exact (proj1 (X23_tip_stream_forwards_contents steady_provider
                  sample_question []
                  (set_current_tip (Some "left over") empty_world)
                  {| deltas := [Some "Draw "; None; Some "it."];
                     ending := None |} eq_refl)).
Defined.

Lemma X24_witness :
  (get_complete_question
     (generate_question_content_stream repeating_provider sample_content
        sample_request [] empty_world).2).1
  = Ok (sample_content "Question: B").
Proof.
  pose proof (X24_question_stream_result repeating_provider sample_content
                sample_request [] empty_world
                {| deltas := [Some "Qu"; Some ""; Some "estion: B"];
                   ending := None |} eq_refl) as H.
  destruct (generate_question_content_stream repeating_provider
              sample_content sample_request [] empty_world)
    as [[fragments e] w'].
  destruct H as (-> & _ & H). simpl. rewrite H. reflexivity.
Defined.

(** ** The endpoints *)

Section RouteFacts.

Variable env : environment.
Context {embedder : Embedder}.


Lemma generate_questions_loop_raise rs request k previous stored
    generated w e w' :
  QuestionService.generate_questions_loop env rs request k previous
    stored generated w = (Raise e, w') ->
  (exists previous0 stored0 w0,
     QuestionService._generate_unique_question env rs request previous0
       stored0 w0 = (Raise e, w')) \/
  (exists candidate w0,
     add_question env request candidate w0 = (Raise e, w')).
Proof.
  revert previous stored generated w.
  induction k as [|k IH]; intros previous stored generated w; [done|].
  cbn [QuestionService.generate_questions_loop]. unfold bind.
  destruct (QuestionService._generate_unique_question env rs request
              previous stored w) as [[candidate|e0] w1] eqn:Hgen.
  - destruct (add_question env request candidate w1) as [[q|e1] w2]
      eqn:Hadd.
    + apply IH.
    + intros [= <- <-]. right. eauto.
  - intros [= <- <-]. left. eauto.
Qed.


End RouteFacts.


(** ** Nothing stored: the embedder is not consulted *)



(** ** The singleton decorator *)

Lemma get_instances_Some {Args Instance : Type} (cls : Args -> Instance)
    (calls : list Args) (instance : Instance) :
  get_instances cls calls (Some instance)
  = (repeat instance (length calls), Some instance).
Proof.
  induction calls as [|args calls IH]; simpl; [done|]. by rewrite IH.
Qed.

(** X28 -- however often a decorated class is called and with whatever
    arguments, every call returns the instance built from the arguments of
    the first call; the arguments of later calls are ignored. *)
Theorem X28_singleton_first_instance {Args Instance : Type}
    (cls : Args -> Instance) (args : Args) (calls : list Args) :
  get_instances cls (args :: calls) None
  = (repeat (cls args) (S (length calls)), Some (cls args)).
Proof. simpl. by rewrite get_instances_Some. Qed.

(** ** The streaming question service *)

Section QuestionStreamServiceFacts.

Variable env : environment.
Variable _parse_response : string -> QuestionContent.
Context {embedder : Embedder}.
Variable rs : RetryStrategy.

Lemma generate_question_content_stream_trace request previous w :
  let '(fragments, e, w') :=
    generate_question_content_stream env _parse_response request
      previous w in
  same_stores w w' /\
  (e = None ->
   _current_question w'
   = Some (_parse_response (concat_fragments fragments))).
Proof.
  unfold generate_question_content_stream. simpl.
  destruct (question_stream env (chat_calls w) request previous)
    as [stream|e]; [|by split].
  rewrite question_drain_contents.
  destruct (ending stream); by split.
Qed.

Lemma question_stream_attempt_trace request previous stored w out r w' :
  AsyncQuestionService.stream_attempt env _parse_response request
    previous stored w = (out, r, w') ->
  only_fragments out /\
  match r with
  | Raise _ => same_stores w w'
  | Ok q =>
      exists fragments w1,
        out = map Fragment fragments /\
        question_content q
        = _parse_response (concat_fragments fragments) /\
        same_stores w w1 /\
        (forall x, x ∈ stored ->
           are_embeddings_different (get_embedding (question_text q)) x
           = Ok true) /\
        add_question env request (Some (question_content q)) w1
        = (Ok q, w')
  end.
Proof.
  unfold AsyncQuestionService.stream_attempt.
  pose proof (generate_question_content_stream_trace request previous w)
    as Htrace.
  destruct (generate_question_content_stream env _parse_response request
              previous w) as [[fragments [e|]] w1];
    destruct Htrace as [Hs Hcur].
  { intros [= <- <- <-]. split; [by exists fragments|done]. }
  unfold bind, get_complete_question. rewrite Hcur by done.
  destruct stored as [|s stored].
  - simpl.
    destruct (add_question env request _ w1) as [[q|e] w2] eqn:Hadd;
      intros [= <- <- <-]; (split; [by exists fragments|]).
    + pose proof (add_question_ok _ _ _ _ _ _ Hadd) as ([= Hc] & _).
      exists fragments, w1. split; [done|]. split; [done|].
      split; [done|]. split; [by intros x ?%elem_of_nil|].
      by rewrite <- Hc.
    + apply add_question_raise in Hadd as (?&?&?&?&_).
      eapply same_stores_trans; [exact Hs|]. by repeat split.
  - destruct (is_embedding_different_from_list _ (s :: stored))
      as [[]|e1] eqn:Hall; simpl.
    + destruct (add_question env request _ w1) as [[q|e] w2] eqn:Hadd;
        intros [= <- <- <-]; (split; [by exists fragments|]).
      * pose proof (add_question_ok _ _ _ _ _ _ Hadd) as ([= Hc] & _).
        exists fragments, w1. split; [done|]. split; [done|].
        split; [done|]. split; [|by rewrite <- Hc].
        unfold question_text. rewrite <- Hc. by apply py_all_true.
      * apply add_question_raise in Hadd as (?&?&?&?&_).
        eapply same_stores_trans; [exact Hs|]. by repeat split.
    + intros [= <- <- <-]. split; [by exists fragments|done].
    + intros [= <- <- <-]. split; [by exists fragments|done].
Qed.


(** X30 -- a question stream that ends with an exception has yielded
    text fragments only, never a stored question, and has stored
    nothing. *)
Theorem X30_failed_question_stream (request : QuestionGenerationRequest)
    (w w' : world) (out : list (chunk GeneratedQuestion)) (e : exn) :
  AsyncQuestionService.generate_question_stream env _parse_response rs
    request w = (out, Raise e, w') ->
  only_fragments out /\ same_stores w w'.
Proof.
  unfold AsyncQuestionService.generate_question_stream.
  destruct (max_attempts rs) as [|k] eqn:Hk; [done|].
  intros Hloop.
  apply (stream_retry_loop_trace _ _ same_stores same_stores_refl
           same_stores_trans) in Hloop; [done| | |lia].
  - intros w0 o r w1 H.
    by apply question_stream_attempt_trace in H as [? _].
  - intros w0 o e0 w1 H.
    by apply question_stream_attempt_trace in H as [_ ?].
Qed.

End QuestionStreamServiceFacts.


Lemma X30_witness :
  only_fragments
    (AsyncQuestionService.generate_question_stream failing_provider
       sample_content (embedder := all_different) two_attempts
       sample_request world_with_question).1.1 /\
  same_stores world_with_question
    (AsyncQuestionService.generate_question_stream failing_provider
       sample_content (embedder := all_different) two_attempts
       sample_request world_with_question).2.
Proof.
  apply (X30_failed_question_stream failing_provider sample_content
           (embedder := all_different) two_attempts sample_request
           world_with_question _ _ (ProviderError "connection lost")).
  vm_compute. reflexivity.
Defined.
